(** * Vend-O-Matic: a shallow embedding of [app.py]

    The development follows the source file top to bottom:

    - [Py]: the few Python built-ins the handler relies on ([str.split],
      [str.rstrip], [str.lstrip], [int] on a string, [str] on an integer,
      list indexing, [dict.get], [json.dumps]), written out on Rocq strings
      and integers;
    - [Machine]: the shared [_state] dictionary, the responses, and the small
      state-and-exception monad in which the methods are written;
    - [VendingHandler]: the methods of the class, one definition per method,
      under the names of the source;
    - the vocabulary of the specification (routes, operations, sessions);
    - the properties: supporting lemmas, the statements of the
      specification, the scenarios of [test_app.py] replayed, and the
      invariant for arbitrary requests.

    Modelling conventions.

    - Python integers are unbounded, hence [Z].  [_state["coins"]] is an
      integer and [_state["inventory"]] a list of integers.
    - A Rocq [string] is a sequence of 8-bit characters.  [http.server]
      decodes the request line as ISO-8859-1, so [self.path] is exactly such a
      sequence of code points below 256.
    - JSON numbers are the integer ones.  A number literal with a fraction or
      an exponent is turned by [json.loads] into a Python [float]; such
      bodies, and coin totals that are floats, are outside this model.
    - The handler runs one request to completion: [with _lock] is the
      identity on a sequential execution, and it is kept in the definitions
      only to show where the critical sections of the source are. *)

From Stdlib Require Import ZArith Lia Ascii String.
From stdpp Require Import base list strings pretty.

Local Open Scope Z_scope.
Set Warnings "-register-all".

(* ------------------------------------------------------------------------- *)
(** * Python built-ins used by the handler *)
(* ------------------------------------------------------------------------- *)

Module Py.

(** ** Exceptions *)

Inductive exn : Type :=
| ValueError
| AttributeError
| IndexError
| TypeError
| UnicodeDecodeError
| RecursionError.

Inductive result (A : Type) : Type :=
| Ok (a : A)
| Raise (e : exn).
Arguments Ok {A} a.
Arguments Raise {A} e.

(** ** String methods *)

(** [s.split(c)[0]]: the part of [s] before the first [c]. *)
Fixpoint before_first (c : ascii) (s : string) : string :=
  match s with
  | EmptyString => EmptyString
  | String a r => if Ascii.eqb a c then EmptyString
                  else String a (before_first c r)
  end.

(** [s.rstrip(c)] for a one-character [c]. *)
Fixpoint rstrip (c : ascii) (s : string) : string :=
  match s with
  | EmptyString => EmptyString
  | String a r =>
      match rstrip c r with
      | EmptyString => if Ascii.eqb a c then EmptyString
                       else String a EmptyString
      | r' => String a r'
      end
  end.

(** [s.lstrip(c)] for a one-character [c]. *)
Fixpoint lstrip (c : ascii) (s : string) : string :=
  match s with
  | EmptyString => EmptyString
  | String a r => if Ascii.eqb a c then lstrip c r else s
  end.

(** [s.split(c)]: never empty, [""] splits to [[""]]. *)
Fixpoint split (c : ascii) (s : string) : list string :=
  match s with
  | EmptyString => [EmptyString]
  | String a r =>
      if Ascii.eqb a c then EmptyString :: split c r
      else match split c r with
           | h :: t => String a h :: t
           | [] => [String a EmptyString]
           end
  end.

(** ** [int(s)] on a string, base 10

    CPython first maps the non-ASCII white space of the string to a blank
    (for code points below 256 these are U+0085 and U+00A0), then skips
    the C white space (9 to 13 and 32) on both sides, reads an optional
    sign, and then digits in which single underscores may separate digits.
    Anything else is a [ValueError], here [None]. *)

Definition code (a : ascii) : Z := Z.of_N (N_of_ascii a).

Definition is_space (a : ascii) : bool :=
  let n := code a in
  ((9 <=? n) && (n <=? 13)) || (n =? 32) || (n =? 133) || (n =? 160).

Definition digit_value (a : ascii) : option Z :=
  let n := code a in
  if (48 <=? n) && (n <=? 57) then Some (n - 48) else None.

Fixpoint skip_spaces (s : string) : string :=
  match s with
  | EmptyString => EmptyString
  | String a r => if is_space a then skip_spaces r else s
  end.

(** [sys.int_info.default_max_str_digits]: since CPython 3.11 a string
    with more decimal digits than this is refused. *)
Definition max_str_digits : Z := 4300.

(** The digits after the first one.  [count] is the number of digits read so
    far and [us] tells that the previous character was an underscore, which
    must then be followed by a digit.  The result is the value read, the
    number of its digits and the rest of the string. *)
Fixpoint scan_digits (acc count : Z) (us : bool) (s : string)
  : option (Z * Z * string) :=
  match s with
  | EmptyString => if us then None else Some (acc, count, EmptyString)
  | String a r =>
      match digit_value a with
      | Some d => scan_digits (acc * 10 + d) (count + 1) false r
      | None =>
          if Ascii.eqb a "_"%char
          then (if us then None else scan_digits acc count true r)
          else (if us then None else Some (acc, count, s))
      end
  end.

Definition scan_number (s : string) : option (Z * Z * string) :=
  match s with
  | EmptyString => None
  | String a r =>
      match digit_value a with
      | Some d => scan_digits d 1 false r
      | None => None
      end
  end.

Definition int (s : string) : option Z :=
  let s1 := skip_spaces s in
  let '(neg, s2) :=
    match s1 with
    | String a r =>
        if Ascii.eqb a "-"%char then (true, r)
        else if Ascii.eqb a "+"%char then (false, r)
        else (false, s1)
    | EmptyString => (false, s1)
    end in
  match scan_number s2 with
  | Some (n, digits, rest) =>
      if max_str_digits <? digits then None
      else match skip_spaces rest with
           | EmptyString => Some (if neg then - n else n)
           | String _ _ => None
           end
  | None => None
  end.

(** ** [str(n)] on an integer *)

Definition str (n : Z) : string := pretty n.

(** ** List indexing

    [l[i]] accepts [-len(l) <= i < len(l)]; a negative index counts from
    the end, anything else raises [IndexError]. *)

Definition len {A} (l : list A) : Z := Z.of_nat (length l).

Definition position {A} (l : list A) (i : Z) : option nat :=
  if (0 <=? i) && (i <? len l) then Some (Z.to_nat i)
  else if (- len l <=? i) && (i <? 0) then Some (Z.to_nat (len l + i))
  else None.

Definition getitem {A} (l : list A) (i : Z) : result A :=
  match position l i with
  | Some k => match l !! k with Some x => Ok x | None => Raise IndexError end
  | None => Raise IndexError
  end.

Definition setitem {A} (l : list A) (i : Z) (x : A) : result (list A) :=
  match position l i with
  | Some k => Ok (<[k := x]> l)
  | None => Raise IndexError
  end.

(** ** Values handed over by [json.loads]

    [None], [bool], [int], [str], [list] and [dict].  A [dict] is kept as
    the list of its items in insertion order; its keys are distinct, as
    the keys of a Python dictionary are. *)

Inductive value : Type :=
| PyNone
| PyBool (b : bool)
| PyInt (z : Z)
| PyStr (s : string)
| PyList (l : list value)
| PyDict (items : list (string * value)).

Definition is_None (v : value) : bool :=
  match v with PyNone => true | _ => false end.

Fixpoint lookup_item (k : string) (items : list (string * value)) : option value :=
  match items with
  | [] => None
  | (k', v) :: r => if String.eqb k k' then Some v else lookup_item k r
  end.

(** [v.get(k, d)]: only a [dict] has the attribute [get]. *)
Definition get (v : value) (k : string) (d : value) : result value :=
  match v with
  | PyDict items => Ok (default d (lookup_item k items))
  | _ => Raise AttributeError
  end.

(** [v == n] for an integer [n].  [bool] is a subclass of [int]:
    [True == 1] and [False == 0]. *)
Definition eq_int (v : value) (n : Z) : bool :=
  match v with
  | PyInt z => z =? n
  | PyBool b => (if b then 1 else 0) =? n
  | _ => false
  end.

(** [v in t] for a tuple [t] of integers. *)
Definition contains (t : list Z) (v : value) : bool := existsb (eq_int v) t.

(** [c + v] for an integer [c]. *)
Definition add_int (c : Z) (v : value) : result Z :=
  match v with
  | PyInt z => Ok (c + z)
  | PyBool b => Ok (c + (if b then 1 else 0))
  | _ => Raise TypeError
  end.

(** ** [json.dumps], with its default separators and [ensure_ascii] *)

Definition hex_digit (n : Z) : ascii :=
  ascii_of_N (Z.to_N (if n <? 10 then 48 + n else 87 + n)).

Definition quote_char : ascii := ascii_of_nat 34.
Definition backslash : ascii := ascii_of_nat 92.

Definition escape (a : ascii) : string :=
  let n := code a in
  if n =? 34 then String backslash (String quote_char EmptyString)
  else if n =? 92 then String backslash (String backslash EmptyString)
  else if n =? 8 then String backslash "b"
  else if n =? 12 then String backslash "f"
  else if n =? 10 then String backslash "n"
  else if n =? 13 then String backslash "r"
  else if n =? 9 then String backslash "t"
  else if (32 <=? n) && (n <=? 126) then String a EmptyString
  else String backslash
         (String "u" (String "0" (String "0"
           (String (hex_digit (n / 16)) (String (hex_digit (n mod 16)) EmptyString))))).

Fixpoint escape_all (s : string) : string :=
  match s with
  | EmptyString => EmptyString
  | String a r => escape a +:+ escape_all r
  end.

Definition quoted (s : string) : string :=
  String quote_char (escape_all s +:+ String quote_char EmptyString).

Fixpoint dumps (v : value) : string :=
  match v with
  | PyNone => "null"
  | PyBool b => if b then "true" else "false"
  | PyInt z => str z
  | PyStr s => quoted s
  | PyList l =>
      "[" +:+
      (fix elems (l : list value) : string :=
         match l with
         | [] => ""
         | x :: r => dumps x +:+ match r with
                                 | [] => ""
                                 | _ :: _ => ", " +:+ elems r
                                 end
         end) l +:+ "]"
  | PyDict items =>
      "{" +:+
      (fix members (l : list (string * value)) : string :=
         match l with
         | [] => ""
         | (k, x) :: r => quoted k +:+ ": " +:+ dumps x +:+
                          match r with
                          | [] => ""
                          | _ :: _ => ", " +:+ members r
                          end
         end) items +:+ "}"
  end.

(** [len(s.encode())] for an ASCII string, as [dumps] produces. *)
Definition strlen (s : string) : Z := Z.of_nat (String.length s).

End Py.

(* ------------------------------------------------------------------------- *)
(** * The shared state and the handler monad *)
(* ------------------------------------------------------------------------- *)

Module Machine.
Import Py.

(** The module-level dictionary [_state]. *)
Record MachineState : Type := {
  coins : Z;              (* quarters inserted, not yet spent *)
  inventory : list Z      (* quantities for item IDs 0, 1, 2 *)
}.

Definition _state : MachineState := {| coins := 0; inventory := [5; 5; 5] |}.

Definition ITEM_PRICE : Z := 2.

(** What one call of a response helper puts on the wire: the status line,
    the headers the handler adds itself, and the bytes written after
    them (empty when nothing is written). *)
Record response : Type := {
  status : Z;
  headers : list (string * string);
  body : string
}.

(** The operations of the specification.  Each is a critical section of
    the handler; entering one is recorded in the [invoked] log below. *)
Inductive core_op : Type :=
| InsertCoin
| CancelTransaction
| GetInventorySnapshot
| GetItemQuantity
| PurchaseItem.

(** The world a handler method runs in: the shared state, the responses
    sent so far on the connection, and the log of critical sections
    entered.  The log is ghost state: it has no counterpart in the source
    and no definition reads it. *)
Record world : Type := {
  machine : MachineState;
  wire : list response;
  invoked : list core_op
}.

Definition fresh (s : MachineState) : world :=
  {| machine := s; wire := []; invoked := [] |}.

(** A method either returns or raises, and changes the world up to that
    point. *)
Definition M (A : Type) : Type := world -> result A * world.

Definition ret {A} (a : A) : M A := fun w => (Ok a, w).

Definition raise {A} (e : exn) : M A := fun w => (Raise e, w).

Definition bind {A B} (m : M A) (k : A -> M B) : M B :=
  fun w => match m w with
           | (Ok a, w') => k a w'
           | (Raise e, w') => (Raise e, w')
           end.

Definition lift {A} (r : result A) : M A := fun w => (r, w).

Definition get_coins : M Z := fun w => (Ok (coins (machine w)), w).

Definition get_inventory : M (list Z) := fun w => (Ok (inventory (machine w)), w).

Definition set_coins (c : Z) : M unit :=
  fun w => (Ok tt, {| machine := {| coins := c; inventory := inventory (machine w) |};
                      wire := wire w; invoked := invoked w |}).

Definition set_inventory (l : list Z) : M unit :=
  fun w => (Ok tt, {| machine := {| coins := coins (machine w); inventory := l |};
                      wire := wire w; invoked := invoked w |}).

Definition send (r : response) : M unit :=
  fun w => (Ok tt, {| machine := machine w; wire := wire w ++ [r];
                      invoked := invoked w |}).

Definition enter (op : core_op) : M unit :=
  fun w => (Ok tt, {| machine := machine w; wire := wire w;
                      invoked := invoked w ++ [op] |}).

(** [with _lock: ...] *)
Definition with_lock {A} (m : M A) : M A := m.

End Machine.

Notation "'let*' x ':=' m 'in' k" := (Machine.bind m (fun x => k))
  (at level 10, x pattern, m at level 100, k at level 200).
Notation "m '>>' k" := (Machine.bind m (fun _ => k))
  (at level 80, right associativity).

(* ------------------------------------------------------------------------- *)
(** * class VendingHandler *)
(* ------------------------------------------------------------------------- *)

Module VendingHandler.
Import Py Machine.

(** What [json.loads] does with the bytes read from the connection. *)
Inductive loads_result : Type :=
| Loaded (v : value)
| JSONDecodeError
| LoadsRaised (e : exn).

(** The part of a request the handler looks at: [self.path], the value of
    the [Content-Length] header when there is one, and the outcome of
    [json.loads(self.rfile.read(length))], which the handler evaluates only
    when the length is not zero. *)
Record request : Type := {
  path : string;
  content_length : option string;
  loads : loads_result
}.

(** ** Response helpers *)

Definition _send_no_content (hs : list (string * string)) : M unit :=
  send {| status := 204; headers := hs; body := "" |}.

Definition _send_json (code : Z) (b : value) (hs : list (string * string)) : M unit :=
  let payload := dumps b in
  send {| status := code;
          headers := ("Content-Type", "application/json")
                       :: ("Content-Length", str (strlen payload)) :: hs;
          body := payload |}.

Definition _send_error_plain (code : Z) (hs : list (string * string)) : M unit :=
  send {| status := code; headers := hs; body := "" |}.

Definition _read_json_body (rq : request) : M value :=
  let* length :=
    match content_length rq with
    | None => ret 0
    | Some h => match int h with
                | Some n => ret n
                | None => raise ValueError
                end
    end in
  if length =? 0 then ret (PyDict [])
  else match loads rq with
       | Loaded v => ret v
       | JSONDecodeError => ret PyNone
       | LoadsRaised e => raise e
       end.

(** ** Path parsing *)

Definition normalize (p : string) : string :=
  match rstrip "/" (before_first "?" p) with
  | EmptyString => "/"
  | r => r
  end.

Definition _parse_path (rq : request) : M (option (list string) * option Z) :=
  let raw := normalize (path rq) in
  if String.eqb raw "/" then ret (Some [""%string], None)
  else
    let parts := split "/" (lstrip "/" raw) in
    match parts with
    | [p0; p1] =>
        if String.eqb p0 "inventory" then
          match int p1 with
          | None => _send_error_plain 404 [] >> ret (None, None)
          | Some item_id =>
              with_lock (
                let* inv := get_inventory in
                if (item_id <? 0) || (len inv <=? item_id)
                then _send_error_plain 404 [] >> ret (None, None)
                else ret (Some parts, Some item_id))
          end
        else ret (Some parts, None)
    | _ => ret (Some parts, None)
    end.

(** ** Route handlers *)

Definition _handle_root_put (rq : request) : M unit :=
  let* body := _read_json_body rq in
  if is_None body then _send_error_plain 400 []
  else
    let* coin := lift (get body "coin" (PyInt 0)) in
    if negb (contains [0; 1] coin) then _send_error_plain 400 []
    else
      let* total :=
        with_lock (
          enter InsertCoin >>
          let* c := get_coins in
          let* c' := lift (add_int c coin) in
          set_coins c' >>
          get_coins) in
      _send_no_content [("X-Coins"%string, str total)].

Definition _handle_root_delete : M unit :=
  let* returned :=
    with_lock (
      enter CancelTransaction >>
      let* returned := get_coins in
      set_coins 0 >>
      ret returned) in
  _send_no_content [("X-Coins"%string, str returned)].

Definition _handle_inventory_get : M unit :=
  let* snapshot :=
    with_lock (enter GetInventorySnapshot >> get_inventory) in
  _send_json 200 (PyList (map PyInt snapshot)) [].

Definition _handle_item_get (item_id : Z) : M unit :=
  let* qty :=
    with_lock (
      enter GetItemQuantity >>
      let* inv := get_inventory in
      lift (getitem inv item_id)) in
  _send_json 200 (PyInt qty) [].

Definition _handle_item_put (item_id : Z) : M unit :=
  let* sold :=
    with_lock (
      enter PurchaseItem >>
      let* inv := get_inventory in
      let* qty := lift (getitem inv item_id) in
      let* coins := get_coins in
      if qty =? 0 then
        _send_error_plain 404 [("X-Coins"%string, str coins)] >> ret None
      else if coins <? ITEM_PRICE then
        _send_error_plain 403 [("X-Coins"%string, str coins)] >> ret None
      else
        let* inv := get_inventory in
        let* q := lift (getitem inv item_id) in
        let* inv' := lift (setitem inv item_id (q - 1)) in
        set_inventory inv' >>
        let* c := get_coins in
        set_coins (c - ITEM_PRICE) >>
        let* inv := get_inventory in
        let* new_qty := lift (getitem inv item_id) in
        let* change := get_coins in
        ret (Some (change, new_qty))) in
  match sold with
  | None => ret tt
  | Some (change, new_qty) =>
      _send_json 200 (PyDict [("quantity"%string, PyInt 1)])
        [("X-Coins"%string, str change);
         ("X-Inventory-Remaining"%string, str new_qty)]
  end.

(** ** Dispatch *)

Definition do_GET (rq : request) : M unit :=
  let* (segments, item_id) := _parse_path rq in
  match segments with
  | None => ret tt
  | Some segs =>
      if bool_decide (segs = ["inventory"%string]) then _handle_inventory_get
      else match segs, item_id with
           | [s0; _], Some i =>
               if String.eqb s0 "inventory" then _handle_item_get i
               else _send_error_plain 404 []
           | _, _ => _send_error_plain 404 []
           end
  end.

Definition do_PUT (rq : request) : M unit :=
  let* (segments, item_id) := _parse_path rq in
  match segments with
  | None => ret tt
  | Some segs =>
      if bool_decide (segs = [""%string]) then _handle_root_put rq
      else match segs, item_id with
           | [s0; _], Some i =>
               if String.eqb s0 "inventory" then _handle_item_put i
               else _send_error_plain 404 []
           | _, _ => _send_error_plain 404 []
           end
  end.

Definition do_DELETE (rq : request) : M unit :=
  let* (segments, item_id) := _parse_path rq in
  match segments with
  | None => ret tt
  | Some segs =>
      if bool_decide (segs = [""%string]) then _handle_root_delete
      else _send_error_plain 404 []
  end.

End VendingHandler.

(* ------------------------------------------------------------------------- *)
(** * Vocabulary of the specification *)
(* ------------------------------------------------------------------------- *)

Import Py Machine VendingHandler.

(** ** Responses *)

Definition plain_response (code : Z) (hs : list (string * string)) : response :=
{| status := code; headers := hs; body := "" |}.

(** The success record of a purchase: [{"quantity": 1}] with the change and
    the new quantity in the headers. *)
Definition sold_response (change new_qty : Z) : response :=
{| status := 200;
   headers := [("Content-Type", "application/json"); ("Content-Length", "15");
               ("X-Coins", str change);
               ("X-Inventory-Remaining", str new_qty)]%string;
   body := dumps (PyDict [("quantity"%string, PyInt 1)]) |}.

(** ** Requests *)

(** The request has a body of non-zero declared length that [json.loads]
    turns into [v]. *)
Definition carries (rq : request) (v : value) : Prop :=
exists h n, content_length rq = Some h /\ int h = Some n /\ n <> 0 /\
            loads rq = Loaded v.

(** The request has no body: no [Content-Length] header, or one that reads
    as zero. *)
Definition no_body (rq : request) : Prop :=
content_length rq = None \/
exists h, content_length rq = Some h /\ int h = Some 0.

(** The path is the root route [/]. *)
Definition root_route (p : string) : Prop := normalize p = "/"%string.

(** The path is the item route [/inventory/{id}] with [seg] for [{id}]:
    after the query string and the trailing slashes are dropped, it splits
    into exactly the two segments [inventory] and [seg]. *)
Definition item_route (p seg : string) : Prop :=
split "/" (lstrip "/" (normalize p)) = ["inventory"%string; seg].

(** [seg] is not the ID of an item of a machine with [n] items. *)
Definition invalid_id (seg : string) (n : Z) : Prop :=
int seg = None \/ exists k, int seg = Some k /\ (k < 0 \/ n <= k).

(** [c] does not occur in [s]. *)
Fixpoint free_of (c : ascii) (s : string) : Prop :=
match s with
| EmptyString => True
| String a r => Ascii.eqb a c = false /\ free_of c r
end.

(** A [coin] value that is neither 0 nor 1.  The booleans are left out:
    Python takes [False] and [True] for 0 and 1. *)
Definition coin_outside (v : value) : Prop :=
match v with
| PyInt z => z <> 0 /\ z <> 1
| PyBool _ => False
| _ => True
end.

(** ** Operations of the machine

    Each operation of the specification is the route handler that contains
    its critical section; [InsertCoin(amount)] is [PUT /] with the body
    [{"coin": amount}]. *)

Inductive operation : Type :=
| Insert (amount : Z)
| Cancel
| Snapshot
| Quantity (itemID : Z)
| Purchase (itemID : Z).

Definition coin_request (amount : Z) : request :=
{| path := "/";
   content_length := Some "11"%string;
   loads := Loaded (PyDict [("coin"%string, PyInt amount)]) |}.

Definition perform (op : operation) : M unit :=
match op with
| Insert amount => _handle_root_put (coin_request amount)
| Cancel => _handle_root_delete
| Snapshot => _handle_inventory_get
| Quantity i => _handle_item_get i
| Purchase i => _handle_item_put i
end.

(** The state of the machine after one operation, and after each operation
    of a sequence. *)
Definition step (s : MachineState) (op : operation) : MachineState :=
machine (snd (perform op (fresh s))).

Fixpoint states_after (s : MachineState) (ops : list operation) : list MachineState :=
match ops with
| [] => []
| op :: rest => let s' := step s op in s' :: states_after s' rest
end.

Definition amount_ok (op : operation) : Prop :=
match op with
| Insert amount => amount = 0 \/ amount = 1
| _ => True
end.

Definition nonneg (s : MachineState) : Prop :=
0 <= coins s /\ Forall (fun q => 0 <= q) (inventory s).

(** ** Sessions

    [http.server] calls [do_GET], [do_PUT] or [do_DELETE] after the method of
    the request.  A session is a sequence of requests, each on a connection
    of its own, against the one shared state; an exception ends the
    connection and leaves the state as the method left it. *)

Inductive method : Type := GET | PUT | DELETE.

Definition serve (m : method) (rq : request) : M unit :=
match m with
| GET => do_GET rq
| PUT => do_PUT rq
| DELETE => do_DELETE rq
end.

Fixpoint session (s : MachineState) (rqs : list (method * request))
  : list (list response) * MachineState :=
match rqs with
| [] => ([], s)
| (m, rq) :: rest =>
    let w := snd (serve m rq (fresh s)) in
    let '(out, s') := session (machine w) rest in
    (wire w :: out, s')
end.

(** A request as the test suite builds it: a path and, when there is a JSON
    body, its length and what it parses to. *)
Definition request_of (p : string) (b : option value) : request :=
{| path := p;
   content_length := match b with
                     | Some v => Some (str (strlen (dumps v)))
                     | None => None
                     end;
   loads := match b with
            | Some v => Loaded v
            | None => JSONDecodeError
            end |}.

Definition put_coin : method * request :=
(PUT, request_of "/" (Some (PyDict [("coin"%string, PyInt 1)]))).

Definition buy (p : string) : method * request := (PUT, request_of p None).

(** ** Some requests *)

(** [PUT /] with the body [{}]. *)
Definition empty_object_request : request :=
{| path := "/"; content_length := Some "2"%string; loads := Loaded (PyDict []) |}.

(** [PUT /] with the body [[]]. *)
Definition array_request : request :=
{| path := "/"; content_length := Some "2"%string; loads := Loaded (PyList []) |}.

(** [PUT /] with the body [7]. *)
Definition number_request : request :=
{| path := "/"; content_length := Some "1"%string; loads := Loaded (PyInt 7) |}.

(** [PUT /] with the header [Content-Length: abc]. *)
Definition bad_length_request : request :=
{| path := "/"; content_length := Some "abc"%string; loads := JSONDecodeError |}.

(** ** Two statements of the specification, as they are worded *)

(** "The [coin] field must be present and in {0,1}, else reject": a missing
    field and a field outside {0,1} are both answered 400, with nothing
    changed and no operation started. *)
Definition rejects_absent_or_outside_coin : Prop :=
forall (rq : request) (s : MachineState) (items : list (string * value)),
  root_route (path rq) -> carries rq (PyDict items) ->
  (lookup_item "coin" items = None \/
   exists v, lookup_item "coin" items = Some v /\ coin_outside v) ->
  do_PUT rq (fresh s) =
    (Ok tt, {| machine := s; wire := [plain_response 400 []]; invoked := [] |}).

(** "Every input either succeeds or maps to one of the codes": [PUT /]
    always returns, having sent one response with status 204 or 400. *)
Definition put_root_total : Prop :=
forall (rq : request) (s : MachineState),
  root_route (path rq) ->
  exists w r, do_PUT rq (fresh s) = (Ok tt, w) /\ wire w = [r] /\
              (status r = 204 \/ status r = 400).

(** ** Routing and state changes, for the whole handler *)

(** The segments [_parse_path] splits a path into. *)
Definition segments_of (p : string) : list string :=
split "/" (lstrip "/" (normalize p)).

(** [seg] reads as the ID [i] of an item of a machine with [n] items. *)
Definition valid_id (seg : string) (n i : Z) : Prop :=
int seg = Some i /\ 0 <= i < n.

(** What [_send_json] puts on the wire. *)
Definition json_response (code : Z) (b : value) (hs : list (string * string))
  : response :=
{| status := code;
   headers := ("Content-Type"%string, "application/json"%string)
                :: ("Content-Length"%string, str (strlen (dumps b))) :: hs;
   body := dumps b |}.

(** The same request under another path. *)
Definition with_path (rq : request) (p : string) : request :=
{| path := p; content_length := content_length rq; loads := loads rq |}.

(** The ways one request can change the state: not at all, one coin more,
    all coins returned, or one item sold for the price. *)
Inductive transition (s : MachineState) : method -> MachineState -> Prop :=
| Unchanged m :
    transition s m s
| CoinInserted :
    transition s PUT {| coins := coins s + 1; inventory := inventory s |}
| CoinsReturned :
    transition s DELETE {| coins := 0; inventory := inventory s |}
| ItemSold (k : nat) (q : Z) :
    inventory s !! k = Some q -> q <> 0 -> ITEM_PRICE <= coins s ->
    transition s PUT {| coins := coins s - ITEM_PRICE;
                        inventory := <[k := q - 1]> (inventory s) |}.

(** A value without the attribute [get] that passes the [is None] test. *)
Definition not_a_dict (v : value) : Prop :=
match v with
| PyNone | PyDict _ => False
| _ => True
end.

(** The ways reading the body of a [PUT /] ends in the exception [e]: the
    [Content-Length] is not a number, [json.loads] raises something else
    than [JSONDecodeError], or the body is JSON but not an object. *)
Definition body_fault (rq : request) (e : exn) : Prop :=
(exists h, content_length rq = Some h /\ int h = None /\ e = ValueError) \/
(exists h n, content_length rq = Some h /\ int h = Some n /\ n <> 0 /\
             loads rq = LoadsRaised e) \/
(exists v, carries rq v /\ not_a_dict v /\ e = AttributeError).

(** The status codes the handler sends. *)
Definition known_status (c : Z) : Prop :=
c = 200 \/ c = 204 \/ c = 400 \/ c = 403 \/ c = 404.

(** A response is either bare (no body, not a 200) or a 200 with a JSON
    body, announced by its type and its length. *)
Definition well_formed (r : response) : Prop :=
(status r <> 200 /\ body r = EmptyString) \/
(status r = 200 /\
 exists hs, headers r = ("Content-Type"%string, "application/json"%string)
                          :: ("Content-Length"%string, str (strlen (body r))) :: hs).

(** The state after a sequence of operations. *)
Definition after (s : MachineState) (ops : list operation) : MachineState :=
foldl step s ops.

(** The number of purchases that go through when [n] are tried in a row
    with [q] items in stock and [c] coins. *)
Definition sales (n : nat) (q c : Z) : Z :=
Z.max 0 (Z.min (Z.of_nat n) (Z.min q (c / ITEM_PRICE))).

(* ------------------------------------------------------------------------- *)
(** * Properties *)
(* ------------------------------------------------------------------------- *)

(** ** Indexing *)

Section Indexing.
Context {A : Type}.
Implicit Types (l : list A) (i : Z) (x : A).

Lemma position_in_range l i :
  0 <= i < len l -> position l i = Some (Z.to_nat i).
Proof.
  intros [H0 H1]. unfold position.
  apply Z.leb_le in H0. apply Z.ltb_lt in H1. now rewrite H0, H1.
Qed.

Lemma lookup_in_range l i x : 0 <= i -> l !! Z.to_nat i = Some x -> 0 <= i < len l.
Proof.
  intros H0 Hx. apply lookup_lt_Some in Hx. unfold len. lia.
Qed.

Lemma getitem_at l i k x :
  position l i = Some k -> l !! k = Some x -> getitem l i = Ok x.
Proof. intros Hk Hx. unfold getitem. now rewrite Hk, Hx. Qed.

Lemma setitem_at l i k x :
  position l i = Some k -> setitem l i x = Ok (<[k := x]> l).
Proof. intros Hk. unfold setitem. now rewrite Hk. Qed.

Lemma getitem_Ok l i x :
  getitem l i = Ok x -> exists k, position l i = Some k /\ l !! k = Some x.
Proof.
  unfold getitem. destruct (position l i) as [k|]; [|discriminate].
  destruct (l !! k) eqn:E; [|discriminate]. intros [= <-]. eauto.
Qed.

Lemma position_insert l i k x : position (<[k := x]> l) i = position l i.
Proof. unfold position, len. now rewrite length_insert. Qed.

End Indexing.

(** ** The purchase handler, case by case *)

Ltac run_method :=
  unfold with_lock, bind, enter, get_inventory, get_coins, set_coins,
    set_inventory, lift, ret, raise, fresh; simpl.

Lemma machine_eta (s : MachineState) :
  {| coins := coins s; inventory := inventory s |} = s.
Proof. now destruct s. Qed.

Lemma item_put_raises (s : MachineState) (i : Z) (e : exn) :
  getitem (inventory s) i = Raise e ->
  _handle_item_put i (fresh s) =
    (Raise e, {| machine := s; wire := []; invoked := [PurchaseItem] |}).
Proof.
  intros Hq. unfold _handle_item_put. run_method. now rewrite Hq.
Qed.

Lemma item_put_out_of_stock (s : MachineState) (i : Z) :
  getitem (inventory s) i = Ok 0 ->
  _handle_item_put i (fresh s) =
    (Ok tt, {| machine := s;
               wire := [plain_response 404 [("X-Coins"%string, str (coins s))]];
               invoked := [PurchaseItem] |}).
Proof.
  intros Hq. unfold _handle_item_put. run_method. now rewrite Hq.
Qed.

Lemma item_put_insufficient (s : MachineState) (i q : Z) :
  getitem (inventory s) i = Ok q -> q <> 0 -> coins s < ITEM_PRICE ->
  _handle_item_put i (fresh s) =
    (Ok tt, {| machine := s;
               wire := [plain_response 403 [("X-Coins"%string, str (coins s))]];
               invoked := [PurchaseItem] |}).
Proof.
  intros Hq Hne Hc. unfold _handle_item_put. run_method. rewrite Hq. simpl.
  apply Z.eqb_neq in Hne. rewrite Hne.
  apply Z.ltb_lt in Hc. now rewrite Hc.
Qed.

Lemma item_put_sold (s : MachineState) (i q : Z) (k : nat) :
  position (inventory s) i = Some k -> inventory s !! k = Some q ->
  q <> 0 -> ITEM_PRICE <= coins s ->
  _handle_item_put i (fresh s) =
    (Ok tt, {| machine := {| coins := coins s - ITEM_PRICE;
                             inventory := <[k := q - 1]> (inventory s) |};
               wire := [sold_response (coins s - ITEM_PRICE) (q - 1)];
               invoked := [PurchaseItem] |}).
Proof.
  intros Hk Hq Hne Hc. unfold _handle_item_put. run_method.
  rewrite (getitem_at _ _ _ _ Hk Hq). simpl.
  apply Z.eqb_neq in Hne. rewrite Hne.
  apply Z.ltb_ge in Hc. rewrite Hc. simpl.
  rewrite (getitem_at _ _ _ _ Hk Hq). simpl.
  rewrite (setitem_at _ _ _ _ Hk). simpl.
  rewrite (getitem_at (<[k:=q - 1]> (inventory s)) i k (q - 1)).
  - reflexivity.
  - now rewrite position_insert.
  - apply list_lookup_insert_eq. apply lookup_lt_Some in Hq. exact Hq.
Qed.

(** C1.  In a state where item [itemID] is in stock and the coins cover the
    price, the purchase succeeds: in the one critical section it enters, the
    stock of the item goes down by exactly 1 and the coins by exactly the
    price, and the answer is the success record with quantity 1, the new
    stock of the item and the remaining coins. *)
Theorem purchase_succeeds (s : MachineState) (itemID q : Z) :
  0 <= itemID -> inventory s !! Z.to_nat itemID = Some q ->
  0 < q -> ITEM_PRICE <= coins s ->
  _handle_item_put itemID (fresh s) =
    (Ok tt, {| machine := {| coins := coins s - ITEM_PRICE;
                             inventory := <[Z.to_nat itemID := q - 1]> (inventory s) |};
               wire := [sold_response (coins s - ITEM_PRICE) (q - 1)];
               invoked := [PurchaseItem] |}).
Proof.
  intros H0 Hq Hpos Hc.
  apply item_put_sold; auto; [|lia].
  apply position_in_range. eapply lookup_in_range; eauto.
Qed.

Lemma purchase_succeeds_witness :
  _handle_item_put 2 (fresh {| coins := 3; inventory := [5; 5; 5] |}) =
    (Ok tt, {| machine := {| coins := 1; inventory := [5; 5; 4] |};
               wire := [sold_response 1 4];
               invoked := [PurchaseItem] |}).
Proof.
  apply (purchase_succeeds {| coins := 3; inventory := [5; 5; 5] |} 2 5);
    [lia | reflexivity | lia | unfold ITEM_PRICE; simpl; lia].
Defined.

(** C2.  When item [itemID] has no stock left, the purchase fails with
    out-of-stock (404) whatever the coin balance is, so also when the coins
    are below the price: the stock is looked at first, and 403 is never the
    answer. *)
Theorem out_of_stock_first (s : MachineState) (itemID : Z) :
  0 <= itemID -> inventory s !! Z.to_nat itemID = Some 0 ->
  _handle_item_put itemID (fresh s) =
    (Ok tt, {| machine := s;
               wire := [plain_response 404 [("X-Coins"%string, str (coins s))]];
               invoked := [PurchaseItem] |}) /\
  Forall (fun r => status r <> 403) (wire (snd (_handle_item_put itemID (fresh s)))).
Proof.
  intros H0 Hq.
  assert (E : getitem (inventory s) itemID = Ok 0).
  { eapply getitem_at; [apply position_in_range; eapply lookup_in_range|]; eauto. }
  rewrite (item_put_out_of_stock s itemID E). split; [reflexivity|].
  simpl. constructor; [simpl; lia | constructor].
Qed.

Lemma out_of_stock_first_witness :
  _handle_item_put 1 (fresh {| coins := 1; inventory := [5; 0; 5] |}) =
    (Ok tt, {| machine := {| coins := 1; inventory := [5; 0; 5] |};
               wire := [plain_response 404 [("X-Coins"%string, "1"%string)]];
               invoked := [PurchaseItem] |}) /\
  Forall (fun r => status r <> 403)
    (wire (snd (_handle_item_put 1 (fresh {| coins := 1; inventory := [5; 0; 5] |})))).
Proof.
  apply (out_of_stock_first {| coins := 1; inventory := [5; 0; 5] |} 1);
    [lia | reflexivity].
Defined.

(** C3.  A purchase that fails, with out-of-stock (no stock) or with
    insufficient funds (stock, but coins below the price), leaves the state
    as it was: the coins are kept, every inventory entry is kept, and the
    [X-Coins] header of the error is that unchanged balance. *)
Theorem failed_purchase_keeps_state (s : MachineState) (itemID q : Z) :
  0 <= itemID -> inventory s !! Z.to_nat itemID = Some q ->
  q = 0 \/ (0 < q /\ coins s < ITEM_PRICE) ->
  _handle_item_put itemID (fresh s) =
    (Ok tt, {| machine := s;
               wire := [plain_response (if q =? 0 then 404 else 403)
                          [("X-Coins"%string, str (coins s))]];
               invoked := [PurchaseItem] |}).
Proof.
  intros H0 Hq Hfail.
  assert (E : getitem (inventory s) itemID = Ok q).
  { eapply getitem_at; [apply position_in_range; eapply lookup_in_range|]; eauto. }
  destruct Hfail as [-> | [Hpos Hc]].
  - now apply item_put_out_of_stock.
  - replace (q =? 0) with false by (symmetry; apply Z.eqb_neq; lia).
    apply (item_put_insufficient s itemID q); auto. lia.
Qed.

Lemma failed_purchase_keeps_state_witness :
  _handle_item_put 0 (fresh {| coins := 1; inventory := [5; 5; 5] |}) =
    (Ok tt, {| machine := {| coins := 1; inventory := [5; 5; 5] |};
               wire := [plain_response 403 [("X-Coins"%string, "1"%string)]];
               invoked := [PurchaseItem] |}).
Proof.
  apply (failed_purchase_keeps_state {| coins := 1; inventory := [5; 5; 5] |} 0 5);
    [lia | reflexivity | right; unfold ITEM_PRICE; simpl; lia].
Defined.

(** ** Reading the body *)

Lemma carries_intro (rq : request) (v : value) (h : string) (n : Z) :
  content_length rq = Some h -> int h = Some n -> n <> 0 ->
  loads rq = Loaded v -> carries rq v.
Proof. intros. exists h, n. auto. Qed.

Lemma read_json_body_carried (rq : request) (v : value) (w : world) :
  carries rq v -> _read_json_body rq w = (Ok v, w).
Proof.
  intros (h & n & Hh & Hn & Hne & Hl). unfold _read_json_body. run_method.
  rewrite Hh, Hn. simpl. apply Z.eqb_neq in Hne. now rewrite Hne, Hl.
Qed.

Lemma read_json_body_none (rq : request) (w : world) :
  no_body rq -> _read_json_body rq w = (Ok (PyDict []), w).
Proof.
  unfold _read_json_body. run_method.
  intros [Hh | (h & Hh & Hn)]; rewrite Hh; [|rewrite Hn]; reflexivity.
Qed.

Lemma read_json_body_bad_length (rq : request) (h : string) (w : world) :
  content_length rq = Some h -> int h = None ->
  _read_json_body rq w = (Raise ValueError, w).
Proof.
  intros Hh Hn. unfold _read_json_body. run_method. now rewrite Hh, Hn.
Qed.

(** ** The coin handler, case by case *)

Lemma root_put_accepts (rq : request) (s : MachineState)
    (items : list (string * value)) (amount : Z) :
  _read_json_body rq (fresh s) = (Ok (PyDict items), fresh s) ->
  default (PyInt 0) (lookup_item "coin" items) = PyInt amount ->
  amount = 0 \/ amount = 1 ->
  _handle_root_put rq (fresh s) =
    (Ok tt, {| machine := {| coins := coins s + amount; inventory := inventory s |};
               wire := [plain_response 204 [("X-Coins"%string, str (coins s + amount))]];
               invoked := [InsertCoin] |}).
Proof.
  intros Hb Hc Ha. unfold _handle_root_put, bind at 1. rewrite Hb. simpl.
  run_method. rewrite Hc.
  destruct Ha as [-> | ->]; reflexivity.
Qed.

Lemma root_put_rejects (rq : request) (s : MachineState)
    (items : list (string * value)) (v : value) :
  _read_json_body rq (fresh s) = (Ok (PyDict items), fresh s) ->
  lookup_item "coin" items = Some v -> coin_outside v ->
  _handle_root_put rq (fresh s) =
    (Ok tt, {| machine := s; wire := [plain_response 400 []]; invoked := [] |}).
Proof.
  intros Hb Hc Hv.
  assert (E : contains [0; 1] v = false).
  { destruct v as [ | b | z | | | ]; simpl in *; try reflexivity; [tauto|].
    destruct Hv as [H0 H1]. apply Z.eqb_neq in H0, H1. now rewrite H0, H1. }
  unfold _handle_root_put, bind at 1. rewrite Hb.
  unfold bind, lift, get. cbn -[contains]. rewrite Hc. cbn -[contains].
  now rewrite E.
Qed.

Lemma root_put_not_a_dict (rq : request) (s : MachineState) (v : value) :
  _read_json_body rq (fresh s) = (Ok v, fresh s) ->
  match v with PyNone | PyDict _ => False | _ => True end ->
  _handle_root_put rq (fresh s) = (Raise AttributeError, fresh s).
Proof.
  intros Hb Hv. unfold _handle_root_put, bind at 1. rewrite Hb.
  destruct v; simpl in Hv; try tauto; reflexivity.
Qed.

(** ** Dispatch *)

Lemma parse_path_root (rq : request) (w : world) :
  root_route (path rq) -> _parse_path rq w = (Ok (Some [""%string], None), w).
Proof. unfold root_route, _parse_path. intros ->. reflexivity. Qed.

Lemma do_PUT_root (rq : request) (w : world) :
  root_route (path rq) -> do_PUT rq w = _handle_root_put rq w.
Proof.
  intros Hr. unfold do_PUT, bind at 1. now rewrite parse_path_root.
Qed.

Lemma do_DELETE_root (rq : request) (w : world) :
  root_route (path rq) -> do_DELETE rq w = _handle_root_delete w.
Proof.
  intros Hr. unfold do_DELETE, bind at 1. now rewrite parse_path_root.
Qed.

Lemma item_route_not_root (p seg : string) :
  item_route p seg -> String.eqb (normalize p) "/" = false.
Proof.
  unfold item_route. intros H. destruct (String.eqb_spec (normalize p) "/") as [E|]; auto.
  rewrite E in H. discriminate.
Qed.

Lemma parse_path_invalid_id (rq : request) (s : MachineState) (seg : string) :
  item_route (path rq) seg -> invalid_id seg (len (inventory s)) ->
  _parse_path rq (fresh s) =
    (Ok (None, None),
     {| machine := s; wire := [plain_response 404 []]; invoked := [] |}).
Proof.
  intros Hr Hbad. unfold _parse_path.
  rewrite (item_route_not_root _ _ Hr). unfold item_route in Hr. rewrite Hr. simpl.
  destruct Hbad as [-> | (k & -> & Hk)]; [reflexivity|].
  run_method.
  replace ((k <? 0) || (len (inventory s) <=? k)) with true; [reflexivity|].
  symmetry. apply orb_true_iff. rewrite Z.ltb_lt, Z.leb_le. exact Hk.
Qed.

(** ** The canonical item path *)

Lemma before_first_free (c : ascii) (s : string) :
  free_of c s -> before_first c s = s.
Proof.
  induction s as [|a r IH]; simpl; [reflexivity|].
  intros [-> Hr]. now rewrite IH.
Qed.

Lemma rstrip_free (c : ascii) (s : string) :
  s <> EmptyString -> free_of c s -> rstrip c s = s.
Proof.
  induction s as [|a r IH]; [congruence|]. intros _ [Ha Hr]. simpl.
  destruct r as [|b r'].
  - simpl. now rewrite Ha.
  - rewrite IH by (auto; discriminate). reflexivity.
Qed.

Lemma rstrip_app (c : ascii) (p s : string) :
  s <> EmptyString -> rstrip c s = s -> rstrip c (p +:+ s) = p +:+ s.
Proof.
  intros Hne Hs. induction p as [|a p IH]; [exact Hs|].
  change (String a p +:+ s) with (String a (p +:+ s)).
  cbn [rstrip]. rewrite IH. destruct (p +:+ s) eqn:E; [|reflexivity].
  destruct p; cbv in E; congruence.
Qed.

Lemma split_free (c : ascii) (s : string) : free_of c s -> split c s = [s].
Proof.
  induction s as [|a r IH]; simpl; [reflexivity|].
  intros [-> Hr]. now rewrite IH.
Qed.

Lemma item_route_canonical (seg : string) :
  seg <> EmptyString -> free_of "/" seg -> free_of "?" seg ->
  item_route ("/inventory/" +:+ seg) seg.
Proof.
  intros Hne Hs Hq. unfold item_route, normalize.
  rewrite before_first_free by (simpl; repeat split; assumption).
  rewrite (rstrip_app "/" "/inventory/" seg Hne (rstrip_free _ _ Hne Hs)).
  simpl. now rewrite split_free.
Qed.

(** ** The statements of the specification *)

(** C5.  For an amount of 0 or 1 and any state, inserting the coin (a
    [PUT /] whose body has [coin] equal to the amount) adds exactly the
    amount to the coins, leaves the inventory as it is, and reports in
    [X-Coins] the total right after the addition; with amount 0 the state is
    the one before and the total reported is the old one. *)
Theorem insert_coin_adds_amount (rq : request) (s : MachineState)
    (items : list (string * value)) (amount : Z) :
  carries rq (PyDict items) ->
  lookup_item "coin" items = Some (PyInt amount) ->
  amount = 0 \/ amount = 1 ->
  _handle_root_put rq (fresh s) =
    (Ok tt, {| machine := {| coins := coins s + amount; inventory := inventory s |};
               wire := [plain_response 204 [("X-Coins"%string, str (coins s + amount))]];
               invoked := [InsertCoin] |}) /\
  (amount = 0 ->
   _handle_root_put rq (fresh s) =
     (Ok tt, {| machine := s;
                wire := [plain_response 204 [("X-Coins"%string, str (coins s))]];
                invoked := [InsertCoin] |})).
Proof.
  intros Hb Hc Ha.
  assert (E := root_put_accepts rq s items amount
                 (read_json_body_carried rq _ (fresh s) Hb)).
  rewrite Hc in E. specialize (E eq_refl Ha). split; [exact E|].
  intros ->. rewrite E, Z.add_0_r. now rewrite machine_eta.
Qed.

Lemma insert_coin_adds_amount_witness :
  _handle_root_put (coin_request 1) (fresh {| coins := 1; inventory := [5; 5; 5] |}) =
    (Ok tt, {| machine := {| coins := 2; inventory := [5; 5; 5] |};
               wire := [plain_response 204 [("X-Coins"%string, "2"%string)]];
               invoked := [InsertCoin] |}).
Proof.
  refine (proj1 (insert_coin_adds_amount (coin_request 1)
                   {| coins := 1; inventory := [5; 5; 5] |}
                   [("coin"%string, PyInt 1)] 1 _ _ _)).
  - apply (carries_intro _ _ "11" 11); [reflexivity | reflexivity | lia | reflexivity].
  - reflexivity.
  - right; reflexivity.
Defined.

(** C6.  Cancelling returns, in [X-Coins], the coins held right before the
    call, sets the coins to 0 and leaves the inventory as it is.  On a
    machine without coins it returns 0 and the state stays the same, so a
    second cancellation in a row returns 0. *)
Theorem cancel_returns_coins (s : MachineState) :
  _handle_root_delete (fresh s) =
    (Ok tt, {| machine := {| coins := 0; inventory := inventory s |};
               wire := [plain_response 204 [("X-Coins"%string, str (coins s))]];
               invoked := [CancelTransaction] |}) /\
  _handle_root_delete (fresh {| coins := 0; inventory := inventory s |}) =
    (Ok tt, {| machine := {| coins := 0; inventory := inventory s |};
               wire := [plain_response 204 [("X-Coins"%string, "0"%string)]];
               invoked := [CancelTransaction] |}).
Proof. split; reflexivity. Qed.

(** C7, as amended.  A [PUT /] whose body is an object with a [coin] field
    that is neither 0 nor 1 (nor a boolean) is answered 400 with no body and
    no headers; the coins and the inventory are not changed and the
    insertion is not started. *)
Theorem coin_outside_rejected (rq : request) (s : MachineState)
    (items : list (string * value)) (v : value) :
  root_route (path rq) -> carries rq (PyDict items) ->
  lookup_item "coin" items = Some v -> coin_outside v ->
  do_PUT rq (fresh s) =
    (Ok tt, {| machine := s; wire := [plain_response 400 []]; invoked := [] |}).
Proof.
  intros Hr Hb Hc Hv. rewrite do_PUT_root by exact Hr.
  eapply root_put_rejects; eauto using read_json_body_carried.
Qed.

Lemma coin_outside_rejected_witness :
  do_PUT (coin_request 2) (fresh _state) =
    (Ok tt, {| machine := _state; wire := [plain_response 400 []]; invoked := [] |}).
Proof.
  refine (coin_outside_rejected (coin_request 2) _state
            [("coin"%string, PyInt 2)] (PyInt 2) _ _ _ _).
  - reflexivity.
  - apply (carries_intro _ _ "11" 11); [reflexivity | reflexivity | lia | reflexivity].
  - reflexivity.
  - simpl. lia.
Defined.

(** C7, as worded, fails: the body [{}] has no [coin] field, and the request
    is accepted with 204 as an insertion of 0. *)
Lemma absent_coin_is_accepted :
  root_route (path empty_object_request) /\
  carries empty_object_request (PyDict []) /\
  lookup_item "coin" [] = None /\
  do_PUT empty_object_request (fresh _state) =
    (Ok tt, {| machine := _state;
               wire := [plain_response 204 [("X-Coins"%string, "0"%string)]];
               invoked := [InsertCoin] |}) /\
  ~ rejects_absent_or_outside_coin.
Proof.
  assert (Hc : carries empty_object_request (PyDict [])).
  { apply (carries_intro _ _ "2" 2); [reflexivity | reflexivity | lia | reflexivity]. }
  repeat split; try reflexivity; try exact Hc.
  intros H.
  specialize (H empty_object_request _state [] eq_refl Hc (or_introl eq_refl)).
  discriminate H.
Qed.

(** C8.  [PUT /] is not total.  A body that parses to an array or to a
    number makes [body.get] raise [AttributeError], and a [Content-Length]
    that is not a number makes [int] raise [ValueError]; nothing catches
    them, and no response is sent. *)
Theorem put_root_raises :
  do_PUT array_request (fresh _state) = (Raise AttributeError, fresh _state) /\
  do_PUT number_request (fresh _state) = (Raise AttributeError, fresh _state) /\
  do_PUT bad_length_request (fresh _state) = (Raise ValueError, fresh _state) /\
  ~ put_root_total.
Proof.
  repeat split; try reflexivity.
  intros H. destruct (H array_request _state eq_refl) as (w & r & E & _).
  discriminate E.
Qed.

(** C9.  A [GET] or [PUT] on [/inventory/{id}] whose [{id}] does not read
    as an integer, or reads as one outside [0, N), is answered 404 with no
    body and no headers by the path parser; no operation of the machine is
    started, and the coins and the inventory are not changed. *)
Theorem invalid_item_id_rejected (rq : request) (s : MachineState) (seg : string) :
  item_route (path rq) seg -> invalid_id seg (len (inventory s)) ->
  do_GET rq (fresh s) =
    (Ok tt, {| machine := s; wire := [plain_response 404 []]; invoked := [] |}) /\
  do_PUT rq (fresh s) =
    (Ok tt, {| machine := s; wire := [plain_response 404 []]; invoked := [] |}).
Proof.
  intros Hr Hbad. unfold do_GET, do_PUT, bind.
  rewrite (parse_path_invalid_id rq s seg Hr Hbad). split; reflexivity.
Qed.

Lemma invalid_item_id_rejected_witness :
  let rq := {| path := "/inventory/99"; content_length := None;
               loads := JSONDecodeError |} in
  do_GET rq (fresh _state) =
    (Ok tt, {| machine := _state; wire := [plain_response 404 []]; invoked := [] |}) /\
  do_PUT rq (fresh _state) =
    (Ok tt, {| machine := _state; wire := [plain_response 404 []]; invoked := [] |}).
Proof.
  refine (invalid_item_id_rejected _ _state "99" _ _).
  - reflexivity.
  - right. exists 99. split; [reflexivity | right; unfold len; simpl; lia].
Defined.

(** C10.  A [PUT /] without a body ([Content-Length] missing, or reading as
    0) is not turned down: the body counts as the empty object, the missing
    [coin] as 0, and the answer is 204 with [X-Coins] the current total; the
    coins and the inventory stay as they are. *)
Theorem put_root_without_body (rq : request) (s : MachineState) :
  root_route (path rq) -> no_body rq ->
  _read_json_body rq (fresh s) = (Ok (PyDict []), fresh s) /\
  get (PyDict []) "coin" (PyInt 0) = Ok (PyInt 0) /\
  do_PUT rq (fresh s) =
    (Ok tt, {| machine := s;
               wire := [plain_response 204 [("X-Coins"%string, str (coins s))]];
               invoked := [InsertCoin] |}).
Proof.
  intros Hr Hb. split; [now apply read_json_body_none|]. split; [reflexivity|].
  rewrite do_PUT_root by exact Hr.
  rewrite (root_put_accepts rq s [] 0 (read_json_body_none rq _ Hb) eq_refl
             (or_introl eq_refl)).
  now rewrite Z.add_0_r, machine_eta.
Qed.

Lemma put_root_without_body_witness :
  let rq := {| path := "/"; content_length := None; loads := JSONDecodeError |} in
  let s := {| coins := 1; inventory := [5; 4; 5] |} in
  _read_json_body rq (fresh s) = (Ok (PyDict []), fresh s) /\
  get (PyDict []) "coin" (PyInt 0) = Ok (PyInt 0) /\
  do_PUT rq (fresh s) =
    (Ok tt, {| machine := s;
               wire := [plain_response 204 [("X-Coins"%string, "1"%string)]];
               invoked := [InsertCoin] |}).
Proof.
  refine (put_root_without_body _ {| coins := 1; inventory := [5; 4; 5] |} _ _).
  - reflexivity.
  - left; reflexivity.
Defined.

(** ** The invariant *)

Lemma nonneg_initial : nonneg _state.
Proof. split; [simpl; lia | repeat constructor; lia]. Qed.

Lemma step_insert (s : MachineState) (amount : Z) :
  amount = 0 \/ amount = 1 ->
  step s (Insert amount) = {| coins := coins s + amount; inventory := inventory s |}.
Proof.
  intros Ha. unfold step, perform.
  rewrite (root_put_accepts (coin_request amount) s
             [("coin"%string, PyInt amount)] amount); auto.
Qed.

Lemma step_cancel (s : MachineState) :
  step s Cancel = {| coins := 0; inventory := inventory s |}.
Proof. reflexivity. Qed.

Lemma step_snapshot (s : MachineState) : step s Snapshot = s.
Proof. reflexivity. Qed.

Lemma step_quantity (s : MachineState) (i : Z) : step s (Quantity i) = s.
Proof.
  unfold step, perform, _handle_item_get. run_method.
  destruct (getitem (inventory s) i); reflexivity.
Qed.

Lemma step_purchase (s : MachineState) (i : Z) :
  step s (Purchase i) = s \/
  exists k q, inventory s !! k = Some q /\ q <> 0 /\ ITEM_PRICE <= coins s /\
    step s (Purchase i) = {| coins := coins s - ITEM_PRICE;
                             inventory := <[k := q - 1]> (inventory s) |}.
Proof.
  unfold step, perform.
  destruct (getitem (inventory s) i) as [q|e] eqn:Hq.
  - destruct (Z.eq_dec q 0) as [-> | Hne].
    + left. now rewrite item_put_out_of_stock.
    + destruct (Z.lt_ge_cases (coins s) ITEM_PRICE) as [Hc | Hc].
      * left. now rewrite (item_put_insufficient s i q).
      * right. destruct (getitem_Ok _ _ _ Hq) as (k & Hk & Hx).
        exists k, q. repeat split; auto.
        now rewrite (item_put_sold s i q k).
  - left. now rewrite (item_put_raises s i e).
Qed.

Lemma step_nonneg (s : MachineState) (op : operation) :
  nonneg s -> amount_ok op -> nonneg (step s op).
Proof.
  intros [Hc Hi] Hop. destruct op as [amount | | | i | i].
  - rewrite step_insert by exact Hop. split; simpl; [|exact Hi].
    simpl in Hop. lia.
  - rewrite step_cancel. split; simpl; [lia | exact Hi].
  - now rewrite step_snapshot.
  - now rewrite step_quantity.
  - destruct (step_purchase s i) as [-> | (k & q & Hq & Hne & Hp & ->)];
      [now split|].
    split; simpl; [lia|].
    apply Forall_insert; [exact Hi|].
    pose proof (proj1 (Forall_lookup _ _) Hi k q Hq) as Hq0. simpl in Hq0. lia.
Qed.

Lemma states_after_nonneg (ops : list operation) (s : MachineState) :
  nonneg s -> Forall amount_ok ops -> Forall nonneg (states_after s ops).
Proof.
  revert s. induction ops as [|op rest IH]; intros s Hs Hops; simpl.
  - constructor.
  - inversion Hops as [|? ? Hop Hrest]; subst.
    assert (Hs' := step_nonneg s op Hs Hop).
    constructor; [exact Hs' | now apply IH].
Qed.

(** C4.  Start from the initial state (no coins, five of each of the three
    items) and run any finite sequence of coin insertions of 0 or 1,
    cancellations, inventory snapshots, quantity reads and purchases: after
    each operation the coins are not negative and no inventory entry is
    negative. *)
Theorem coins_and_stock_never_negative (ops : list operation) :
  Forall amount_ok ops -> Forall nonneg (states_after _state ops).
Proof. apply states_after_nonneg, nonneg_initial. Qed.

Lemma coins_and_stock_never_negative_witness :
  Forall nonneg
    (states_after _state
       [Insert 1; Insert 1; Purchase 0; Purchase 0; Insert 0; Quantity 0;
        Cancel; Snapshot; Purchase 1]).
Proof.
  apply coins_and_stock_never_negative.
  repeat (constructor; [simpl; auto|]). constructor.
Defined.

(** ** The test suite, replayed

    The scenarios of [test_app.py], each from the initial state. *)

Example test_insert_two_coins :
  session _state [put_coin; put_coin] =
    ([[plain_response 204 [("X-Coins", "1")]];
      [plain_response 204 [("X-Coins", "2")]]]%string,
     {| coins := 2; inventory := [5; 5; 5] |}).
Proof. reflexivity. Qed.

Example test_cancel_resets_coin_count :
  fst (session _state [put_coin; (DELETE, request_of "/" None);
                       (DELETE, request_of "/" None)]) =
    [[plain_response 204 [("X-Coins", "1")]];
     [plain_response 204 [("X-Coins", "1")]];
     [plain_response 204 [("X-Coins", "0")]]]%string.
Proof. reflexivity. Qed.

Example test_get_inventory_after_purchase :
  last (fst (session _state [put_coin; put_coin; buy "/inventory/1";
                             (GET, request_of "/inventory" None)])) =
    Some [{| status := 200;
             headers := [("Content-Type", "application/json");
                         ("Content-Length", "9")]%string;
             body := "[5, 4, 5]" |}].
Proof. reflexivity. Qed.

Example test_purchase_with_change :
  session _state [put_coin; put_coin; put_coin; buy "/inventory/2"] =
    ([[plain_response 204 [("X-Coins", "1")]];
      [plain_response 204 [("X-Coins", "2")]];
      [plain_response 204 [("X-Coins", "3")]];
      [sold_response 1 4]]%string,
     {| coins := 1; inventory := [5; 5; 4] |}).
Proof. reflexivity. Qed.

Example test_insufficient_funds_one_coin :
  last (fst (session _state [put_coin; buy "/inventory/0"])) =
    Some [plain_response 403 [("X-Coins", "1")]]%string.
Proof. reflexivity. Qed.

Example test_out_of_stock_checked_before_insufficient_funds :
  let deplete := [put_coin; put_coin; buy "/inventory/1"] in
  let rqs := deplete ++ deplete ++ deplete ++ deplete ++ deplete ++
             [put_coin; buy "/inventory/1"] in
  snd (session _state rqs) = {| coins := 1; inventory := [5; 0; 5] |} /\
  last (fst (session _state rqs)) =
    Some [plain_response 404 [("X-Coins", "1")]]%string.
Proof. split; reflexivity. Qed.

Example test_invalid_item_id :
  session _state [(GET, request_of "/inventory/99" None); buy "/inventory/99";
                  (GET, request_of "/unknown" None); buy "/unknown"] =
    (replicate 4 [plain_response 404 []], _state).
Proof. reflexivity. Qed.

(** ** The invariant, for every request

    Whatever the request, also one that is rejected or that ends in an
    exception, the state it leaves is not negative when the state it found
    was not. *)

Lemma setitem_Forall {A} (P : A -> Prop) (l l' : list A) (i : Z) (x : A) :
  Forall P l -> P x -> setitem l i x = Ok l' -> Forall P l'.
Proof.
  intros Hl Hx. unfold setitem. destruct (position l i); [|discriminate].
  intros [= <-]. now apply Forall_insert.
Qed.

Lemma getitem_Forall {A} (P : A -> Prop) (l : list A) (i : Z) (x : A) :
  Forall P l -> getitem l i = Ok x -> P x.
Proof.
  intros Hl Hx. destruct (getitem_Ok _ _ _ Hx) as (k & _ & Hk).
  exact (proj1 (Forall_lookup _ _) Hl k x Hk).
Qed.

Lemma parse_path_returns (rq : request) (w : world) :
  exists x w', _parse_path rq w = (Ok x, w') /\ machine w' = machine w.
Proof.
  unfold _parse_path.
  destruct (String.eqb _ _); [run_method; eauto|].
  destruct (split _ _) as [|p0 [|p1 [|p2 ps]]]; try (run_method; eauto).
  destruct (String.eqb p0 _); [|run_method; eauto].
  destruct (int p1) as [k|]; [|run_method; eauto].
  run_method. destruct ((k <? 0) || _); eauto.
Qed.

Lemma root_put_nonneg (rq : request) (w : world) :
  nonneg (machine w) -> nonneg (machine (snd (_handle_root_put rq w))).
Proof.
  intros Hw. unfold _handle_root_put, _read_json_body. run_method.
  destruct (content_length rq) as [h|]; [destruct (int h) as [n|]|]; simpl; auto.
  - destruct (n =? 0); simpl.
    + destruct Hw. split; simpl; [lia | assumption].
    + destruct (loads rq) as [v| |e]; simpl; auto.
      destruct v as [ |b|z|t|l|items]; simpl; auto.
      destruct (lookup_item "coin" items) as [c|]; simpl;
        [|destruct Hw; split; simpl; [lia | assumption]].
      destruct c as [ |b|z|t|l|kv]; simpl; auto.
      * destruct b; simpl; destruct Hw; split; simpl; auto; lia.
      * destruct (z =? 0) eqn:E0; [|destruct (z =? 1) eqn:E1]; simpl; auto;
          destruct Hw; split; simpl; auto;
          rewrite ?Z.eqb_eq in *; lia.
  - destruct Hw. split; simpl; [lia | assumption].
Qed.

Lemma item_put_nonneg (i : Z) (w : world) :
  nonneg (machine w) -> nonneg (machine (snd (_handle_item_put i w))).
Proof.
  intros Hw. unfold _handle_item_put. run_method.
  destruct (getitem (inventory (machine w)) i) as [q|e] eqn:Hq; simpl; auto.
  destruct (q =? 0) eqn:E0; simpl; auto.
  destruct (coins (machine w) <? ITEM_PRICE) eqn:Ec; simpl; auto.
  rewrite Hq. simpl.
  destruct (setitem (inventory (machine w)) i (q - 1)) as [inv'|e] eqn:Hs; simpl; auto.
  destruct Hw as [Hc Hi].
  assert (Hq0 := getitem_Forall _ _ _ _ Hi Hq). simpl in Hq0.
  apply Z.eqb_neq in E0. apply Z.ltb_ge in Ec.
  assert (Hi' : Forall (fun q => 0 <= q) inv')
    by (eapply (setitem_Forall _ _ _ _ _ Hi); [|exact Hs]; simpl; lia).
  destruct (getitem inv' i); simpl; split; simpl; auto; lia.
Qed.

Lemma serve_nonneg (m : method) (rq : request) (s : MachineState) :
  nonneg s -> nonneg (machine (snd (serve m rq (fresh s)))).
Proof.
  intros Hs.
  destruct (parse_path_returns rq (fresh s)) as ([segments item_id] & w' & E & Hw').
  assert (Hn : nonneg (machine w')) by now rewrite Hw'.
  destruct m; unfold serve, do_GET, do_PUT, do_DELETE, bind at 1; rewrite E;
    (destruct segments as [segs|]; [|exact Hn]);
    destruct (bool_decide _).
  - unfold _handle_inventory_get. run_method. exact Hn.
  - destruct segs as [|s0 [|s1 [|]]], item_id as [i|]; try exact Hn.
    destruct (String.eqb s0 _); [|exact Hn].
    unfold _handle_item_get. run_method.
    destruct (getitem _ _); exact Hn.
  - now apply root_put_nonneg.
  - destruct segs as [|s0 [|s1 [|]]], item_id as [i|]; try exact Hn.
    destruct (String.eqb s0 _); [|exact Hn].
    now apply item_put_nonneg.
  - unfold _handle_root_delete. run_method.
    destruct Hn. split; simpl; [lia | assumption].
  - exact Hn.
Qed.

Lemma session_nonneg (rqs : list (method * request)) (s : MachineState) :
  nonneg s -> nonneg (snd (session s rqs)).
Proof.
  revert s. induction rqs as [|[m rq] rest IH]; intros s Hs; simpl; [exact Hs|].
  specialize (IH _ (serve_nonneg m rq s Hs)).
  destruct (session _ rest). exact IH.
Qed.

(* ------------------------------------------------------------------------- *)
(** * Further properties of the handler *)
(* ------------------------------------------------------------------------- *)

(** ** Path normalisation *)

Lemma before_first_app (c : ascii) (p q : string) :
  free_of c p -> before_first c (p +:+ String c q) = p.
Proof.
  induction p as [|a p IH]; intros Hp.
  - change (EmptyString +:+ String c q) with (String c q).
    cbn [before_first]. now rewrite Ascii.eqb_refl.
  - destruct Hp as [Ha Hp].
    change (String a p +:+ String c q) with (String a (p +:+ String c q)).
    cbn [before_first]. now rewrite Ha, IH.
Qed.

Lemma rstrip_snoc (c : ascii) (p : string) :
  rstrip c (p +:+ String c EmptyString) = rstrip c p.
Proof.
  induction p as [|a p IH].
  - change (EmptyString +:+ String c EmptyString) with (String c EmptyString).
    cbn [rstrip]. now rewrite Ascii.eqb_refl.
  - change (String a p +:+ String c EmptyString)
      with (String a (p +:+ String c EmptyString)).
    cbn [rstrip]. now rewrite IH.
Qed.

Lemma free_of_snoc (c d : ascii) (p : string) :
  free_of c p -> Ascii.eqb d c = false -> free_of c (p +:+ String d EmptyString).
Proof.
  intros Hp Hd. induction p as [|a p IH].
  - change (EmptyString +:+ String d EmptyString) with (String d EmptyString).
    cbn [free_of]. auto.
  - destruct Hp as [Ha Hp].
    change (String a p +:+ String d EmptyString)
      with (String a (p +:+ String d EmptyString)).
    split; auto.
Qed.

Lemma normalize_query (p q : string) :
  free_of "?" p -> normalize (p +:+ String "?" q) = normalize p.
Proof.
  intros Hp. unfold normalize.
  now rewrite before_first_app, before_first_free.
Qed.

Lemma normalize_trailing_slash (p : string) :
  free_of "?" p -> normalize (p +:+ "/") = normalize p.
Proof.
  intros Hp. unfold normalize.
  rewrite (before_first_free "?" (p +:+ "/"))
    by (apply free_of_snoc; [exact Hp | reflexivity]).
  now rewrite rstrip_snoc, before_first_free.
Qed.

(** What is left of a string after [rstrip] does not end in the character
    stripped, so it is empty as soon as it consists of that character only. *)
Lemma lstrip_empty_rstrip (c : ascii) (s : string) :
  lstrip c (rstrip c s) = EmptyString -> rstrip c s = EmptyString.
Proof.
  induction s as [|a r IH]; [reflexivity|]. cbn [rstrip].
  destruct (rstrip c r) as [|b r'] eqn:E.
  - destruct (Ascii.eqb a c) eqn:Ea; [reflexivity|].
    cbn. now rewrite Ea.
  - cbn [lstrip]. destruct (Ascii.eqb a c); [|discriminate].
    intros H. specialize (IH H). discriminate IH.
Qed.

Lemma split_blank (c : ascii) (s : string) :
  split c s = [EmptyString] -> s = EmptyString.
Proof.
  destruct s as [|a r]; [reflexivity|]. cbn [split].
  destruct (Ascii.eqb a c).
  - destruct r; cbn; [discriminate|].
    destruct (Ascii.eqb _ _); [discriminate|]. destruct (split c r); discriminate.
  - destruct (split c r); discriminate.
Qed.

Lemma segments_of_root (p : string) :
  root_route p -> segments_of p = [EmptyString].
Proof. unfold root_route, segments_of. now intros ->. Qed.

Lemma segments_not_blank (p : string) :
  ~ root_route p -> segments_of p <> [EmptyString].
Proof.
  unfold root_route, segments_of, normalize. intros Hr Hs.
  apply split_blank in Hs.
  destruct (rstrip "/" (before_first "?" p)) as [|a r] eqn:E; [now apply Hr|].
  rewrite <- E in Hs. apply lstrip_empty_rstrip in Hs. congruence.
Qed.

Lemma root_route_eqb (p : string) :
  ~ root_route p -> String.eqb (normalize p) "/" = false.
Proof. intros Hr. now apply String.eqb_neq. Qed.

Lemma item_route_dec (p : string) :
  (exists seg, item_route p seg) \/ (forall seg, ~ item_route p seg).
Proof.
  unfold item_route. destruct (split _ _) as [|p0 [|p1 [|p2 ps]]];
    try (right; intros seg; discriminate).
  destruct (String.eqb_spec p0 "inventory") as [-> | Hne].
  - left. now exists p1.
  - right. intros seg [= ? ?]. contradiction.
Qed.

Lemma id_dec (seg : string) (n : Z) :
  invalid_id seg n \/ exists i, valid_id seg n i.
Proof.
  unfold invalid_id, valid_id. destruct (int seg) as [k|]; [|now left; left].
  destruct (Z_lt_dec k 0); [left; right; exists k; auto|].
  destruct (Z_le_dec n k); [left; right; exists k; auto|].
  right. exists k. split; [reflexivity | lia].
Qed.

(** ** The outcomes of [_parse_path] on a path that is not the root *)

Lemma parse_path_valid_id (rq : request) (w : world) (seg : string) (i : Z) :
  item_route (path rq) seg -> valid_id seg (len (inventory (machine w))) i ->
  _parse_path rq w = (Ok (Some ["inventory"%string; seg], Some i), w).
Proof.
  intros Hr [Hi Hrange]. unfold _parse_path.
  rewrite (item_route_not_root _ _ Hr). unfold item_route in Hr. rewrite Hr.
  simpl. rewrite Hi. run_method.
  replace ((i <? 0) || (len (inventory (machine w)) <=? i)) with false;
    [reflexivity|].
  symmetry. apply orb_false_iff. rewrite Z.ltb_ge, Z.leb_gt. lia.
Qed.

Lemma parse_path_other (rq : request) (w : world) :
  ~ root_route (path rq) -> (forall seg, ~ item_route (path rq) seg) ->
  _parse_path rq w = (Ok (Some (segments_of (path rq)), None), w).
Proof.
  intros Hr Hi. unfold _parse_path. rewrite (root_route_eqb _ Hr).
  unfold item_route in Hi. fold (segments_of (path rq)) in *.
  destruct (segments_of (path rq)) as [|p0 [|p1 [|p2 ps]]]; try reflexivity.
  destruct (String.eqb_spec p0 "inventory") as [-> | Hne]; [|reflexivity].
  now destruct (Hi p1).
Qed.

(** ** The read handlers *)

Lemma item_get_valid (s : MachineState) (i q : Z) :
  0 <= i -> inventory s !! Z.to_nat i = Some q ->
  _handle_item_get i (fresh s) =
    (Ok tt, {| machine := s; wire := [json_response 200 (PyInt q) []];
               invoked := [GetItemQuantity] |}).
Proof.
  intros H0 Hq. unfold _handle_item_get. run_method.
  rewrite (getitem_at _ _ _ _ (position_in_range _ _ (lookup_in_range _ _ _ H0 Hq)) Hq).
  reflexivity.
Qed.

Lemma lookup_valid (s : MachineState) (i : Z) :
  0 <= i < len (inventory s) -> exists q, inventory s !! Z.to_nat i = Some q.
Proof.
  intros [H0 H1]. apply lookup_lt_is_Some. unfold len in H1. lia.
Qed.

(** ** Routing *)

Lemma not_root_of_segments (p : string) :
  segments_of p <> [EmptyString] -> ~ root_route p.
Proof. intros Hs Hr. now apply Hs, segments_of_root. Qed.

Lemma do_GET_root (rq : request) (s : MachineState) :
  root_route (path rq) ->
  do_GET rq (fresh s) =
    (Ok tt, {| machine := s; wire := [plain_response 404 []]; invoked := [] |}).
Proof.
  intros Hr. unfold do_GET, bind at 1. now rewrite parse_path_root.
Qed.

Lemma do_GET_item (rq : request) (s : MachineState) (seg : string) (i : Z) :
  item_route (path rq) seg -> valid_id seg (len (inventory s)) i ->
  do_GET rq (fresh s) = _handle_item_get i (fresh s).
Proof.
  intros Hr Hi. unfold do_GET, bind at 1.
  rewrite (parse_path_valid_id rq (fresh s) seg i Hr Hi).
  rewrite bool_decide_eq_false_2 by discriminate. reflexivity.
Qed.

Lemma do_PUT_item (rq : request) (s : MachineState) (seg : string) (i : Z) :
  item_route (path rq) seg -> valid_id seg (len (inventory s)) i ->
  do_PUT rq (fresh s) = _handle_item_put i (fresh s).
Proof.
  intros Hr Hi. unfold do_PUT, bind at 1.
  rewrite (parse_path_valid_id rq (fresh s) seg i Hr Hi).
  rewrite bool_decide_eq_false_2 by discriminate. reflexivity.
Qed.

Lemma do_DELETE_item (rq : request) (s : MachineState) (seg : string) (i : Z) :
  item_route (path rq) seg -> valid_id seg (len (inventory s)) i ->
  do_DELETE rq (fresh s) =
    (Ok tt, {| machine := s; wire := [plain_response 404 []]; invoked := [] |}).
Proof.
  intros Hr Hi. unfold do_DELETE, bind at 1.
  rewrite (parse_path_valid_id rq (fresh s) seg i Hr Hi).
  rewrite bool_decide_eq_false_2 by discriminate. reflexivity.
Qed.

Lemma do_GET_other (rq : request) (s : MachineState) :
  ~ root_route (path rq) -> (forall seg, ~ item_route (path rq) seg) ->
  segments_of (path rq) <> ["inventory"%string] ->
  do_GET rq (fresh s) =
    (Ok tt, {| machine := s; wire := [plain_response 404 []]; invoked := [] |}).
Proof.
  intros Hr Hi Hs. unfold do_GET, bind at 1.
  rewrite (parse_path_other rq (fresh s) Hr Hi).
  rewrite bool_decide_eq_false_2 by exact Hs.
  now destruct (segments_of (path rq)) as [|s0 [|s1 [|]]].
Qed.

Lemma do_PUT_other (rq : request) (s : MachineState) :
  ~ root_route (path rq) -> (forall seg, ~ item_route (path rq) seg) ->
  do_PUT rq (fresh s) =
    (Ok tt, {| machine := s; wire := [plain_response 404 []]; invoked := [] |}).
Proof.
  intros Hr Hi. unfold do_PUT, bind at 1.
  rewrite (parse_path_other rq (fresh s) Hr Hi).
  rewrite bool_decide_eq_false_2 by now apply segments_not_blank.
  now destruct (segments_of (path rq)) as [|s0 [|s1 [|]]].
Qed.

Lemma do_DELETE_other (rq : request) (s : MachineState) :
  ~ root_route (path rq) -> (forall seg, ~ item_route (path rq) seg) ->
  do_DELETE rq (fresh s) =
    (Ok tt, {| machine := s; wire := [plain_response 404 []]; invoked := [] |}).
Proof.
  intros Hr Hi. unfold do_DELETE, bind at 1.
  rewrite (parse_path_other rq (fresh s) Hr Hi).
  now rewrite bool_decide_eq_false_2 by now apply segments_not_blank.
Qed.

Lemma serve_invalid_id (m : method) (rq : request) (s : MachineState) (seg : string) :
  item_route (path rq) seg -> invalid_id seg (len (inventory s)) ->
  serve m rq (fresh s) =
    (Ok tt, {| machine := s; wire := [plain_response 404 []]; invoked := [] |}).
Proof.
  intros Hr Hbad. destruct m; unfold serve, do_GET, do_PUT, do_DELETE, bind;
    now rewrite (parse_path_invalid_id rq s seg Hr Hbad).
Qed.

Lemma do_GET_inventory (rq : request) (s : MachineState) :
  segments_of (path rq) = ["inventory"%string] ->
  do_GET rq (fresh s) =
    (Ok tt, {| machine := s;
               wire := [json_response 200 (PyList (map PyInt (inventory s))) []];
               invoked := [GetInventorySnapshot] |}).
Proof.
  intros Hs.
  assert (Hr : ~ root_route (path rq))
    by (apply not_root_of_segments; rewrite Hs; discriminate).
  assert (Hi : forall seg, ~ item_route (path rq) seg)
    by (intros seg H; unfold item_route in H; fold (segments_of (path rq)) in H;
        rewrite Hs in H; discriminate).
  unfold do_GET, bind at 1. rewrite (parse_path_other rq (fresh s) Hr Hi), Hs.
  reflexivity.
Qed.

(** X1.  [GET /inventory] answers 200 with the JSON array of the
    quantities, in the order of the item IDs, and changes nothing. *)
Theorem get_inventory_route (rq : request) (s : MachineState) :
  segments_of (path rq) = ["inventory"%string] ->
  do_GET rq (fresh s) =
    (Ok tt, {| machine := s;
               wire := [json_response 200 (PyList (map PyInt (inventory s))) []];
               invoked := [GetInventorySnapshot] |}).
Proof. apply do_GET_inventory. Qed.

Lemma get_inventory_route_witness :
  do_GET (request_of "/inventory/?verbose=1" None)
         (fresh {| coins := 1; inventory := [5; 0; 12] |}) =
    (Ok tt, {| machine := {| coins := 1; inventory := [5; 0; 12] |};
               wire := [{| status := 200;
                           headers := [("Content-Type", "application/json");
                                       ("Content-Length", "10")]%string;
                           body := "[5, 0, 12]" |}];
               invoked := [GetInventorySnapshot] |}).
Proof.
  apply (get_inventory_route (request_of "/inventory/?verbose=1" None)
           {| coins := 1; inventory := [5; 0; 12] |}).
  reflexivity.
Defined.

(** X2.  [GET /inventory/{id}] with an ID that reads as an integer in
    [0, N) answers 200 with the quantity of that item as a JSON integer, and
    changes nothing. *)
Theorem get_item_route (rq : request) (s : MachineState) (seg : string) (i q : Z) :
  item_route (path rq) seg -> valid_id seg (len (inventory s)) i ->
  inventory s !! Z.to_nat i = Some q ->
  do_GET rq (fresh s) =
    (Ok tt, {| machine := s;
               wire := [{| status := 200;
                           headers := [("Content-Type", "application/json");
                                       ("Content-Length", str (strlen (str q)))]%string;
                           body := str q |}];
               invoked := [GetItemQuantity] |}).
Proof.
  intros Hr Hi Hq. rewrite (do_GET_item rq s seg i Hr Hi).
  destruct Hi as [_ [H0 _]]. now rewrite (item_get_valid s i q H0 Hq).
Qed.

Lemma get_item_route_witness :
  do_GET (request_of "/inventory/2" None)
         (fresh {| coins := 0; inventory := [5; 0; 12] |}) =
    (Ok tt, {| machine := {| coins := 0; inventory := [5; 0; 12] |};
               wire := [{| status := 200;
                           headers := [("Content-Type", "application/json");
                                       ("Content-Length", "2")]%string;
                           body := "12" |}];
               invoked := [GetItemQuantity] |}).
Proof.
  apply (get_item_route (request_of "/inventory/2" None)
           {| coins := 0; inventory := [5; 0; 12] |} "2" 2 12).
  - reflexivity.
  - split; [reflexivity | unfold len; simpl; lia].
  - reflexivity.
Defined.

(** X3.  [PUT /inventory/{id}] with an ID that reads as an integer in
    [0, N) is the purchase of that item, from the path to the answer: 404
    with the coins kept when the item is out of stock, else 403 with the
    coins kept when the coins are below the price, else 200 with one unit
    less of that item and the price less in coins. *)
Theorem put_item_route (rq : request) (s : MachineState) (seg : string) (i q : Z) :
  item_route (path rq) seg -> valid_id seg (len (inventory s)) i ->
  inventory s !! Z.to_nat i = Some q ->
  do_PUT rq (fresh s) =
    (Ok tt,
     if q =? 0 then
       {| machine := s;
          wire := [plain_response 404 [("X-Coins"%string, str (coins s))]];
          invoked := [PurchaseItem] |}
     else if coins s <? ITEM_PRICE then
       {| machine := s;
          wire := [plain_response 403 [("X-Coins"%string, str (coins s))]];
          invoked := [PurchaseItem] |}
     else
       {| machine := {| coins := coins s - ITEM_PRICE;
                        inventory := <[Z.to_nat i := q - 1]> (inventory s) |};
          wire := [sold_response (coins s - ITEM_PRICE) (q - 1)];
          invoked := [PurchaseItem] |}).
Proof.
  intros Hr Hi Hq. rewrite (do_PUT_item rq s seg i Hr Hi).
  destruct Hi as [_ [H0 _]].
  assert (Hk := position_in_range _ _ (lookup_in_range _ _ _ H0 Hq)).
  assert (E := getitem_at _ _ _ _ Hk Hq).
  destruct (Z.eqb_spec q 0) as [-> | Hne].
  - now apply item_put_out_of_stock.
  - destruct (Z.ltb_spec (coins s) ITEM_PRICE) as [Hc | Hc].
    + now apply (item_put_insufficient s i q).
    + now apply item_put_sold.
Qed.

Lemma put_item_route_witness :
  do_PUT (request_of "/inventory/+1" None)
         (fresh {| coins := 2; inventory := [5; 5; 5] |}) =
    (Ok tt, {| machine := {| coins := 0; inventory := [5; 4; 5] |};
               wire := [sold_response 0 4];
               invoked := [PurchaseItem] |}).
Proof.
  apply (put_item_route (request_of "/inventory/+1" None)
           {| coins := 2; inventory := [5; 5; 5] |} "+1" 1 5).
  - reflexivity.
  - split; [reflexivity | unfold len; simpl; lia].
  - reflexivity.
Defined.

(** X4.  A [GET] on a path that is neither [/inventory] nor
    [/inventory/{id}], the root included, is answered 404 with no body and
    no headers, and changes nothing. *)
Theorem get_unknown_route (rq : request) (s : MachineState) :
  segments_of (path rq) <> ["inventory"%string] ->
  (forall seg, ~ item_route (path rq) seg) ->
  do_GET rq (fresh s) =
    (Ok tt, {| machine := s; wire := [plain_response 404 []]; invoked := [] |}).
Proof.
  intros Hs Hi.
  destruct (String.eqb_spec (normalize (path rq)) "/") as [Hr | Hr].
  - now apply do_GET_root.
  - now apply do_GET_other.
Qed.

Lemma get_unknown_route_witness :
  do_GET (request_of "/" None) (fresh _state) =
    (Ok tt, {| machine := _state; wire := [plain_response 404 []]; invoked := [] |}).
Proof.
  apply (get_unknown_route (request_of "/" None) _state).
  - discriminate.
  - intros seg H. discriminate H.
Defined.

(** X5.  A [PUT] on a path that is neither the root nor
    [/inventory/{id}] is answered 404 with no body and no headers; the body
    of the request is not read and nothing changes. *)
Theorem put_unknown_route (rq : request) (s : MachineState) :
  ~ root_route (path rq) -> (forall seg, ~ item_route (path rq) seg) ->
  do_PUT rq (fresh s) =
    (Ok tt, {| machine := s; wire := [plain_response 404 []]; invoked := [] |}).
Proof. apply do_PUT_other. Qed.

Lemma put_unknown_route_witness :
  do_PUT {| path := "/inventory"; content_length := Some "abc"%string;
            loads := LoadsRaised UnicodeDecodeError |} (fresh _state) =
    (Ok tt, {| machine := _state; wire := [plain_response 404 []]; invoked := [] |}).
Proof.
  apply (put_unknown_route
           {| path := "/inventory"; content_length := Some "abc"%string;
              loads := LoadsRaised UnicodeDecodeError |} _state).
  - discriminate.
  - intros seg H. discriminate H.
Defined.

(** X6.  A [DELETE] on any path but the root is answered 404 with no body
    and no headers and returns no coins, whether the path is an item route,
    with a valid ID or not, or anything else. *)
Theorem delete_non_root (rq : request) (s : MachineState) :
  ~ root_route (path rq) ->
  do_DELETE rq (fresh s) =
    (Ok tt, {| machine := s; wire := [plain_response 404 []]; invoked := [] |}).
Proof.
  intros Hr. destruct (item_route_dec (path rq)) as [[seg Hi] | Hi].
  - destruct (id_dec seg (len (inventory s))) as [Hbad | [i Hok]].
    + exact (serve_invalid_id DELETE rq s seg Hi Hbad).
    + exact (do_DELETE_item rq s seg i Hi Hok).
  - now apply do_DELETE_other.
Qed.

Lemma delete_non_root_witness :
  do_DELETE (request_of "/inventory/1" None)
            (fresh {| coins := 3; inventory := [5; 5; 5] |}) =
    (Ok tt, {| machine := {| coins := 3; inventory := [5; 5; 5] |};
               wire := [plain_response 404 []]; invoked := [] |}).
Proof.
  apply (delete_non_root (request_of "/inventory/1" None)
           {| coins := 3; inventory := [5; 5; 5] |}).
  discriminate.
Defined.

(** ** Every outcome of the coin handler and of the purchase handler *)

Lemma root_put_fault (rq : request) (s : MachineState) (e : exn) :
  body_fault rq e -> _handle_root_put rq (fresh s) = (Raise e, fresh s).
Proof.
  intros [(h & Hh & Hn & ->) | [(h & n & Hh & Hn & Hne & Hl) | (v & Hv & Hd & ->)]].
  - unfold _handle_root_put, bind at 1.
    now rewrite (read_json_body_bad_length rq h _ Hh Hn).
  - unfold _handle_root_put, _read_json_body. run_method.
    rewrite Hh, Hn. simpl. apply Z.eqb_neq in Hne. now rewrite Hne, Hl.
  - apply (root_put_not_a_dict rq s v); [now apply read_json_body_carried|].
    exact Hd.
Qed.

Lemma root_put_unparsable (rq : request) (s : MachineState) :
  _read_json_body rq (fresh s) = (Ok PyNone, fresh s) ->
  _handle_root_put rq (fresh s) =
    (Ok tt, {| machine := s; wire := [plain_response 400 []]; invoked := [] |}).
Proof.
  intros Hb. unfold _handle_root_put, bind at 1. now rewrite Hb.
Qed.

Lemma root_put_boolean (rq : request) (s : MachineState)
    (items : list (string * value)) (b : bool) :
  _read_json_body rq (fresh s) = (Ok (PyDict items), fresh s) ->
  lookup_item "coin" items = Some (PyBool b) ->
  _handle_root_put rq (fresh s) =
    (Ok tt, {| machine := {| coins := coins s + (if b then 1 else 0);
                             inventory := inventory s |};
               wire := [plain_response 204
                          [("X-Coins"%string, str (coins s + (if b then 1 else 0)))]];
               invoked := [InsertCoin] |}).
Proof.
  intros Hb Hc. unfold _handle_root_put, bind at 1. rewrite Hb. simpl.
  run_method. rewrite Hc. now destruct b.
Qed.

Lemma read_json_body_cases (rq : request) (s : MachineState) :
  (exists v, _read_json_body rq (fresh s) = (Ok v, fresh s) /\
             (v = PyNone \/ v = PyDict [] \/ carries rq v)) \/
  (exists e, _read_json_body rq (fresh s) = (Raise e, fresh s) /\
     ((exists h, content_length rq = Some h /\ int h = None /\ e = ValueError) \/
      (exists h n, content_length rq = Some h /\ int h = Some n /\ n <> 0 /\
                   loads rq = LoadsRaised e))).
Proof.
  unfold _read_json_body. run_method.
  destruct (content_length rq) as [h|] eqn:Hh; [|left; eauto].
  destruct (int h) as [n|] eqn:Hn; simpl; [|right; eauto 10].
  destruct (n =? 0) eqn:E0; [left; eauto|]. apply Z.eqb_neq in E0.
  destruct (loads rq) as [v| |e] eqn:Hl.
  - left. exists v. split; [reflexivity|]. right; right. exists h, n. auto.
  - left. eauto.
  - right. exists e. split; [reflexivity|]. right. exists h, n. auto.
Qed.

Lemma root_put_cases (rq : request) (s : MachineState) :
  (exists amount, (amount = 0 \/ amount = 1) /\
     _handle_root_put rq (fresh s) =
       (Ok tt, {| machine := {| coins := coins s + amount; inventory := inventory s |};
                  wire := [plain_response 204 [("X-Coins"%string, str (coins s + amount))]];
                  invoked := [InsertCoin] |})) \/
  _handle_root_put rq (fresh s) =
    (Ok tt, {| machine := s; wire := [plain_response 400 []]; invoked := [] |}) \/
  (exists e, body_fault rq e /\ _handle_root_put rq (fresh s) = (Raise e, fresh s)).
Proof.
  destruct (read_json_body_cases rq s) as [(v & Hb & Hv) | (e & Hb & He)].
  - destruct v as [ |b|z|t|l|items].
    + right; left. now apply root_put_unparsable.
    + right; right. exists AttributeError.
      assert (Hc : carries rq (PyBool b)) by (destruct Hv as [|[|]]; [discriminate..|auto]).
      split; [right; right; exists (PyBool b); simpl; auto|].
      now apply (root_put_not_a_dict rq s (PyBool b)).
    + right; right. exists AttributeError.
      assert (Hc : carries rq (PyInt z)) by (destruct Hv as [|[|]]; [discriminate..|auto]).
      split; [right; right; exists (PyInt z); simpl; auto|].
      now apply (root_put_not_a_dict rq s (PyInt z)).
    + right; right. exists AttributeError.
      assert (Hc : carries rq (PyStr t)) by (destruct Hv as [|[|]]; [discriminate..|auto]).
      split; [right; right; exists (PyStr t); simpl; auto|].
      now apply (root_put_not_a_dict rq s (PyStr t)).
    + right; right. exists AttributeError.
      assert (Hc : carries rq (PyList l)) by (destruct Hv as [|[|]]; [discriminate..|auto]).
      split; [right; right; exists (PyList l); simpl; auto|].
      now apply (root_put_not_a_dict rq s (PyList l)).
    + destruct (lookup_item "coin" items) as [c|] eqn:Hc.
      * destruct c as [ |b|z|t|l|kv].
        -- right; left. now apply (root_put_rejects rq s items PyNone).
        -- left. exists (if b then 1 else 0).
           split; [destruct b; auto|]. now apply (root_put_boolean rq s items b).
        -- destruct (Z.eq_dec z 0) as [-> | H0]; [|destruct (Z.eq_dec z 1) as [-> | H1]].
           ++ left. exists 0. split; [auto|].
              apply (root_put_accepts rq s items 0); auto. now rewrite Hc.
           ++ left. exists 1. split; [auto|].
              apply (root_put_accepts rq s items 1); auto. now rewrite Hc.
           ++ right; left. apply (root_put_rejects rq s items (PyInt z)); simpl; auto.
        -- right; left. now apply (root_put_rejects rq s items (PyStr t)).
        -- right; left. now apply (root_put_rejects rq s items (PyList l)).
        -- right; left. now apply (root_put_rejects rq s items (PyDict kv)).
      * left. exists 0. split; [auto|].
        apply (root_put_accepts rq s items 0); auto. now rewrite Hc.
  - right; right. exists e. split.
    + destruct He as [He | He]; [left | right; left]; exact He.
    + unfold _handle_root_put, bind at 1. now rewrite Hb.
Qed.

Lemma item_put_cases (s : MachineState) (i q : Z) :
  0 <= i -> inventory s !! Z.to_nat i = Some q ->
  _handle_item_put i (fresh s) =
    (Ok tt, {| machine := s;
               wire := [plain_response 404 [("X-Coins"%string, str (coins s))]];
               invoked := [PurchaseItem] |}) \/
  _handle_item_put i (fresh s) =
    (Ok tt, {| machine := s;
               wire := [plain_response 403 [("X-Coins"%string, str (coins s))]];
               invoked := [PurchaseItem] |}) \/
  (q <> 0 /\ ITEM_PRICE <= coins s /\
   _handle_item_put i (fresh s) =
     (Ok tt, {| machine := {| coins := coins s - ITEM_PRICE;
                              inventory := <[Z.to_nat i := q - 1]> (inventory s) |};
                wire := [sold_response (coins s - ITEM_PRICE) (q - 1)];
                invoked := [PurchaseItem] |})).
Proof.
  intros H0 Hq.
  assert (Hk := position_in_range _ _ (lookup_in_range _ _ _ H0 Hq)).
  assert (E := getitem_at _ _ _ _ Hk Hq).
  destruct (Z.eq_dec q 0) as [-> | Hne].
  - left. now apply item_put_out_of_stock.
  - destruct (Z.lt_ge_cases (coins s) ITEM_PRICE) as [Hc | Hc].
    + right; left. now apply (item_put_insufficient s i q).
    + right; right. repeat split; auto. now apply item_put_sold.
Qed.

(** ** Every outcome of a request *)

Lemma serve_cases (m : method) (rq : request) (s : MachineState) :
  serve m rq (fresh s) =
    (Ok tt, {| machine := s; wire := [plain_response 404 []]; invoked := [] |}) \/
  (m = GET /\
   serve m rq (fresh s) =
     (Ok tt, {| machine := s;
                wire := [json_response 200 (PyList (map PyInt (inventory s))) []];
                invoked := [GetInventorySnapshot] |})) \/
  (m = GET /\ exists q,
   serve m rq (fresh s) =
     (Ok tt, {| machine := s; wire := [json_response 200 (PyInt q) []];
                invoked := [GetItemQuantity] |})) \/
  (m = PUT /\ root_route (path rq) /\
   serve m rq (fresh s) = _handle_root_put rq (fresh s)) \/
  (m = PUT /\ exists i q, 0 <= i /\ inventory s !! Z.to_nat i = Some q /\
   serve m rq (fresh s) = _handle_item_put i (fresh s)) \/
  (m = DELETE /\ root_route (path rq) /\
   serve m rq (fresh s) =
     (Ok tt, {| machine := {| coins := 0; inventory := inventory s |};
                wire := [plain_response 204 [("X-Coins"%string, str (coins s))]];
                invoked := [CancelTransaction] |})).
Proof.
  destruct (String.eqb_spec (normalize (path rq)) "/") as [Hr | Hr].
  - destruct m; simpl.
    + left. now apply do_GET_root.
    + right; right; right; left. repeat split; auto. now apply do_PUT_root.
    + do 5 right. repeat split; auto. now rewrite do_DELETE_root.
  - destruct (item_route_dec (path rq)) as [[seg Hi] | Hi].
    + destruct (id_dec seg (len (inventory s))) as [Hbad | [i Hok]].
      * left. now apply (serve_invalid_id m rq s seg).
      * destruct (lookup_valid s i (proj2 Hok)) as [q Hq].
        pose proof (proj1 (proj2 Hok)) as H0.
        destruct m; simpl.
        -- right; right; left. split; auto. exists q.
           rewrite (do_GET_item rq s seg i Hi Hok). now apply item_get_valid.
        -- do 4 right; left. split; auto. exists i, q. repeat split; auto.
           now apply (do_PUT_item rq s seg i).
        -- left. now apply (do_DELETE_item rq s seg i).
    + destruct m; simpl.
      * destruct (decide (segments_of (path rq) = ["inventory"%string])) as [Hs | Hs].
        -- right; left. split; auto. now apply do_GET_inventory.
        -- left. now apply do_GET_other.
      * left. now apply do_PUT_other.
      * left. now apply do_DELETE_other.
Qed.

(** ** What every request does *)

(** X7.  A request ends in an uncaught exception exactly when it is a
    [PUT /] whose body cannot be read as an object or as nothing: the
    [Content-Length] is not a number, [json.loads] fails with something else
    than [JSONDecodeError], or the JSON is an array, a number, a string or a
    boolean.  Then no response has been sent and nothing has changed.  [GET],
    [DELETE] and the purchase never raise; in particular list indexing never
    raises [IndexError]. *)
Theorem exception_only_from_put_root (m : method) (rq : request)
    (s : MachineState) (e : exn) (w : world) :
  serve m rq (fresh s) = (Raise e, w) <->
  m = PUT /\ root_route (path rq) /\ body_fault rq e /\ w = fresh s.
Proof.
  split.
  - intros H.
    destruct (serve_cases m rq s)
      as [E | [[_ E] | [[_ [q E]] | [(Hm & Hr & E) | [(_ & i & q & H0 & Hq & E) | (_ & _ & E)]]]]];
      rewrite E in H; try discriminate H.
    + destruct (root_put_cases rq s) as [(a & _ & E') | [E' | (e' & Hf & E')]];
        rewrite E' in H; try discriminate H.
      injection H as -> ->. auto.
    + destruct (item_put_cases s i q H0 Hq) as [E' | [E' | (_ & _ & E')]];
        rewrite E' in H; discriminate H.
  - intros (-> & Hr & Hf & ->). simpl. rewrite do_PUT_root by exact Hr.
    now apply root_put_fault.
Qed.

Lemma exception_only_from_put_root_witness :
  serve PUT array_request (fresh _state) = (Raise AttributeError, fresh _state).
Proof.
  apply (proj2 (exception_only_from_put_root PUT array_request _state
                  AttributeError (fresh _state))).
  split; [reflexivity|]. split; [reflexivity|]. split; [|reflexivity].
  right; right. exists (PyList []). split; [|split; [exact I | reflexivity]].
  apply (carries_intro _ _ "2" 2); [reflexivity | reflexivity | lia | reflexivity].
Defined.

Lemma plain_well_formed (code : Z) (hs : list (string * string)) :
  code <> 200 -> well_formed (plain_response code hs).
Proof. intros H. left. now split. Qed.

Lemma json_well_formed (b : value) (hs : list (string * string)) :
  well_formed (json_response 200 b hs).
Proof. right. split; [reflexivity|]. now exists hs. Qed.

Lemma sold_well_formed (change new_qty : Z) :
  well_formed (sold_response change new_qty).
Proof. right. split; [reflexivity|]. eexists. reflexivity. Qed.

(** X8.  A request that returns has sent exactly one response; its status
    is 200, 204, 400, 403 or 404; a 200 carries a JSON body with its
    [Content-Type] and the [Content-Length] of that body, any other status
    has no body.  A request that raises has sent nothing and changed
    nothing. *)
Theorem one_response_per_request (m : method) (rq : request) (s : MachineState) :
  match serve m rq (fresh s) with
  | (Ok _, w) => exists r, wire w = [r] /\ known_status (status r) /\ well_formed r
  | (Raise _, w) => w = fresh s
  end.
Proof.
  unfold known_status.
  destruct (serve_cases m rq s)
    as [E | [[_ E] | [[_ [q E]] | [(Hm & Hr & E) | [(_ & i & q & H0 & Hq & E) | (_ & _ & E)]]]]];
    rewrite E.
  - eexists; split; [reflexivity|]. split; [simpl; tauto|].
    apply plain_well_formed; discriminate.
  - eexists; split; [reflexivity|]. split; [simpl; tauto|]. apply json_well_formed.
  - eexists; split; [reflexivity|]. split; [simpl; tauto|]. apply json_well_formed.
  - destruct (root_put_cases rq s) as [(a & _ & E') | [E' | (e' & Hf & E')]];
      rewrite E'; [| |reflexivity];
      (eexists; split; [reflexivity|]; split; [simpl; tauto|];
       apply plain_well_formed; discriminate).
  - destruct (item_put_cases s i q H0 Hq) as [E' | [E' | (_ & _ & E')]];
      rewrite E'; eexists; (split; [reflexivity|]); (split; [simpl; tauto|]);
      try (apply plain_well_formed; discriminate).
    apply sold_well_formed.
  - eexists; split; [reflexivity|]. split; [simpl; tauto|].
    apply plain_well_formed; discriminate.
Qed.

Lemma serve_transition (m : method) (rq : request) (s : MachineState) :
  transition s m (machine (snd (serve m rq (fresh s)))).
Proof.
  destruct (serve_cases m rq s)
    as [E | [[_ E] | [[_ [q E]] | [(Hm & Hr & E) | [(Hm & i & q & H0 & Hq & E) | (Hm & _ & E)]]]]];
    rewrite E; simpl; try apply Unchanged.
  - subst m.
    destruct (root_put_cases rq s) as [(a & [-> | ->] & E') | [E' | (e' & Hf & E')]];
      rewrite E'; simpl; try apply Unchanged.
    + rewrite Z.add_0_r, machine_eta. apply Unchanged.
    + apply CoinInserted.
  - subst m.
    destruct (item_put_cases s i q H0 Hq) as [E' | [E' | (Hne & Hc & E')]];
      rewrite E'; simpl; try apply Unchanged.
    now apply ItemSold.
  - subst m. apply CoinsReturned.
Qed.

(** X9.  The only changes of state a request can make are: none; one coin
    more (a [PUT]); all coins returned (a [DELETE]); one unit less of one
    item that was in stock, together with the price less in coins, which
    the balance covered (a [PUT]). *)
Theorem request_transition (m : method) (rq : request) (s : MachineState) :
  transition s m (machine (snd (serve m rq (fresh s)))).
Proof. apply serve_transition. Qed.

(** X10.  A [GET] never raises and never changes the coins or the
    inventory, whatever its path. *)
Theorem get_changes_nothing (rq : request) (s : MachineState) :
  exists w, serve GET rq (fresh s) = (Ok tt, w) /\ machine w = s.
Proof.
  destruct (serve_cases GET rq s)
    as [E | [[_ E] | [[_ [q E]] | [(Hm & _) | [(Hm & _) | (Hm & _)]]]]];
    try discriminate Hm; rewrite E; eexists; split; reflexivity.
Qed.

(** ** Sessions *)

Lemma insert_le (l : list Z) (k : nat) (q : Z) :
  l !! k = Some q -> Forall2 Z.le (<[k := q - 1]> l) l.
Proof.
  revert k. induction l as [|x l IH]; intros [|k] Hq; simpl in *; try discriminate.
  - injection Hq as ->. constructor; [lia | apply Forall2_same_length_lookup_2; auto].
    intros i x y Hx Hy. rewrite Hx in Hy. injection Hy as ->. lia.
  - constructor; [lia | now apply IH].
Qed.

Lemma Forall2_le_refl (l : list Z) : Forall2 Z.le l l.
Proof. induction l; constructor; auto; lia. Qed.

Lemma transition_inventory (s s' : MachineState) (m : method) :
  transition s m s' -> Forall2 Z.le (inventory s') (inventory s).
Proof.
  intros [ | | |k q Hq _ _]; simpl; try apply Forall2_le_refl.
  now apply insert_le.
Qed.

Lemma transition_coins (s s' : MachineState) (m : method) :
  transition s m s' -> 0 <= coins s -> 0 <= coins s' <= coins s + 1.
Proof.
  intros [ | | |k q _ _ Hc]; unfold ITEM_PRICE in *; simpl; lia.
Qed.

(** X11.  Over any sequence of requests the inventory keeps its length and
    no quantity ever goes up: nothing in the handler restocks an item. *)
Theorem inventory_never_grows (rqs : list (method * request)) (s : MachineState) :
  Forall2 Z.le (inventory (snd (session s rqs))) (inventory s).
Proof.
  revert s. induction rqs as [|[m rq] rest IH]; intros s; simpl.
  - apply Forall2_le_refl.
  - specialize (IH (machine (snd (serve m rq (fresh s))))).
    destruct (session _ rest) as [out s']. simpl in *.
    eapply Forall2_trans; [|exact IH|exact (transition_inventory _ _ _ (serve_transition m rq s))].
    intros x y z; simpl; lia.
Qed.

(** X12.  One request adds at most one coin: after [n] requests on a
    machine whose balance was not negative, the balance is at most [n]
    higher, and it is not negative. *)
Theorem at_most_one_coin_per_request (rqs : list (method * request)) (s : MachineState) :
  0 <= coins s ->
  0 <= coins (snd (session s rqs)) <= coins s + Z.of_nat (length rqs).
Proof.
  revert s. induction rqs as [|[m rq] rest IH]; intros s Hs; simpl length.
  - simpl. lia.
  - pose proof (transition_coins _ _ _ (serve_transition m rq s) Hs) as Hc.
    specialize (IH (machine (snd (serve m rq (fresh s)))) (proj1 Hc)).
    simpl. destruct (session _ rest) as [out s']. simpl in *. lia.
Qed.

Lemma at_most_one_coin_per_request_witness :
  0 <= coins (snd (session {| coins := 1; inventory := [5; 5; 5] |}
                     [put_coin; put_coin; buy "/inventory/0"; put_coin]))
    <= 1 + 4.
Proof.
  apply (at_most_one_coin_per_request
           [put_coin; put_coin; buy "/inventory/0"; put_coin]
           {| coins := 1; inventory := [5; 5; 5] |}).
  simpl. lia.
Defined.

(** ** More on the coin route *)

(** X13.  A [PUT /] whose body is not JSON ([JSONDecodeError]), or is the
    JSON [null], is answered 400 with no body and no headers; no coin is
    inserted and nothing changes. *)
Theorem unparsable_body_rejected (rq : request) (s : MachineState)
    (h : string) (n : Z) :
  root_route (path rq) ->
  content_length rq = Some h -> int h = Some n -> n <> 0 ->
  loads rq = JSONDecodeError \/ loads rq = Loaded PyNone ->
  do_PUT rq (fresh s) =
    (Ok tt, {| machine := s; wire := [plain_response 400 []]; invoked := [] |}).
Proof.
  intros Hr Hh Hn Hne Hl. rewrite do_PUT_root by exact Hr.
  apply root_put_unparsable. unfold _read_json_body. run_method.
  rewrite Hh, Hn. simpl. apply Z.eqb_neq in Hne. rewrite Hne.
  now destruct Hl as [-> | ->].
Qed.

Lemma unparsable_body_rejected_witness :
  do_PUT {| path := "/"; content_length := Some "5"%string; loads := JSONDecodeError |}
         (fresh {| coins := 1; inventory := [5; 5; 5] |}) =
    (Ok tt, {| machine := {| coins := 1; inventory := [5; 5; 5] |};
               wire := [plain_response 400 []]; invoked := [] |}).
Proof.
  apply (unparsable_body_rejected
           {| path := "/"; content_length := Some "5"%string; loads := JSONDecodeError |}
           {| coins := 1; inventory := [5; 5; 5] |} "5" 5);
    [reflexivity | reflexivity | reflexivity | lia | left; reflexivity].
Defined.

(** X14.  A [PUT /] whose [coin] is a JSON boolean is accepted: [true]
    inserts one coin and [false] none, since Python takes them for 1 and 0
    in the test [coin not in (0, 1)] and in the addition. *)
Theorem boolean_coin_counts (rq : request) (s : MachineState)
    (items : list (string * value)) (b : bool) :
  root_route (path rq) -> carries rq (PyDict items) ->
  lookup_item "coin" items = Some (PyBool b) ->
  do_PUT rq (fresh s) =
    (Ok tt, {| machine := {| coins := coins s + (if b then 1 else 0);
                             inventory := inventory s |};
               wire := [plain_response 204
                          [("X-Coins"%string, str (coins s + (if b then 1 else 0)))]];
               invoked := [InsertCoin] |}).
Proof.
  intros Hr Hb Hc. rewrite do_PUT_root by exact Hr.
  apply (root_put_boolean rq s items b); [|exact Hc].
  now apply read_json_body_carried.
Qed.

Lemma boolean_coin_counts_witness :
  do_PUT (request_of "/" (Some (PyDict [("coin"%string, PyBool true)])))
         (fresh {| coins := 1; inventory := [5; 5; 5] |}) =
    (Ok tt, {| machine := {| coins := 2; inventory := [5; 5; 5] |};
               wire := [plain_response 204 [("X-Coins"%string, "2"%string)]];
               invoked := [InsertCoin] |}).
Proof.
  apply (boolean_coin_counts
           (request_of "/" (Some (PyDict [("coin"%string, PyBool true)])))
           {| coins := 1; inventory := [5; 5; 5] |}
           [("coin"%string, PyBool true)] true).
  - reflexivity.
  - apply (carries_intro _ _ "14" 14); [reflexivity | reflexivity | lia | reflexivity].
  - reflexivity.
Defined.

(** ** Normalisation of the path *)

Lemma serve_same_route (m : method) (rq rq' : request) (w : world) :
  normalize (path rq') = normalize (path rq) ->
  content_length rq' = content_length rq -> loads rq' = loads rq ->
  serve m rq' w = serve m rq w.
Proof.
  intros Hp Hc Hl.
  destruct m; unfold serve, do_GET, do_PUT, do_DELETE, _parse_path,
    _handle_root_put, _read_json_body; now rewrite ?Hp, ?Hc, ?Hl.
Qed.

(** X15.  A query string and a trailing slash do not count: the request
    for [p?query], and the request for [p/], are served exactly as the
    request for [p]. *)
Theorem query_and_trailing_slash_ignored (m : method) (rq : request)
    (query : string) (w : world) :
  free_of "?" (path rq) ->
  serve m (with_path rq (path rq +:+ String "?" query)) w = serve m rq w /\
  serve m (with_path rq (path rq +:+ "/")) w = serve m rq w.
Proof.
  intros Hp. split; apply serve_same_route; try reflexivity; simpl.
  - now apply normalize_query.
  - now apply normalize_trailing_slash.
Qed.

Lemma query_and_trailing_slash_ignored_witness :
  let rq := request_of "/inventory/1" None in
  let w := fresh {| coins := 2; inventory := [5; 5; 5] |} in
  serve PUT (with_path rq "/inventory/1?dry=run") w = serve PUT rq w /\
  serve PUT (with_path rq "/inventory/1/") w = serve PUT rq w.
Proof.
  apply (query_and_trailing_slash_ignored PUT (request_of "/inventory/1" None)
           "dry=run" (fresh {| coins := 2; inventory := [5; 5; 5] |})).
  simpl. repeat split; reflexivity.
Defined.

(** ** What [_parse_path] promises *)

(** X16.  [_parse_path] never raises and never changes the state.  When it
    returns an item ID, nothing has been sent, the path is an item route
    and the ID is the integer its second segment reads as, within [0, N):
    the handlers never index the inventory out of range or from the end.
    When it returns segments and no ID, nothing has been sent.  When it
    returns no segments, it returns no ID either and has sent one 404. *)
Theorem parse_path_contract (rq : request) (s : MachineState) :
  match _parse_path rq (fresh s) with
  | (Ok (Some segs, Some i), w) =>
      w = fresh s /\ 0 <= i < len (inventory s) /\
      exists seg, segs = ["inventory"%string; seg] /\ int seg = Some i /\
                  item_route (path rq) seg
  | (Ok (Some segs, None), w) =>
      w = fresh s /\ segs = segments_of (path rq) /\
      forall seg, ~ item_route (path rq) seg
  | (Ok (None, item_id), w) =>
      item_id = None /\
      w = {| machine := s; wire := [plain_response 404 []]; invoked := [] |}
  | (Raise _, _) => False
  end.
Proof.
  destruct (String.eqb_spec (normalize (path rq)) "/") as [Hr | Hr].
  - rewrite parse_path_root by exact Hr. repeat split.
    + now rewrite segments_of_root.
    + intros seg Hi. apply item_route_not_root in Hi.
      unfold root_route in Hr. rewrite Hr in Hi. discriminate Hi.
  - destruct (item_route_dec (path rq)) as [[seg Hi] | Hi].
    + destruct (id_dec seg (len (inventory s))) as [Hbad | [i Hok]].
      * rewrite (parse_path_invalid_id rq s seg Hi Hbad). now split.
      * rewrite (parse_path_valid_id rq (fresh s) seg i Hi Hok).
        destruct Hok as [Hint Hrange]. repeat split; try apply Hrange.
        exists seg. auto.
    + rewrite (parse_path_other rq (fresh s) Hr Hi). auto.
Qed.

(** ** Operations in a row *)

Lemma after_snoc (s : MachineState) (ops : list operation) (op : operation) :
  after s (ops ++ [op]) = step (after s ops) op.
Proof. unfold after. now rewrite foldl_snoc. Qed.

Lemma half_bounds (c : Z) :
  ITEM_PRICE * (c / ITEM_PRICE) <= c < ITEM_PRICE * (c / ITEM_PRICE) + ITEM_PRICE.
Proof.
  unfold ITEM_PRICE.
  pose proof (Z_div_mod_eq_full c 2). pose proof (Z.mod_pos_bound c 2). lia.
Qed.

Lemma step_purchase_at (s : MachineState) (i q : Z) :
  0 <= i -> inventory s !! Z.to_nat i = Some q ->
  step s (Purchase i) =
    if (q =? 0) || (coins s <? ITEM_PRICE) then s
    else {| coins := coins s - ITEM_PRICE;
            inventory := <[Z.to_nat i := q - 1]> (inventory s) |}.
Proof.
  intros H0 Hq. unfold step, perform.
  assert (Hk := position_in_range _ _ (lookup_in_range _ _ _ H0 Hq)).
  assert (E := getitem_at _ _ _ _ Hk Hq).
  destruct (Z.eqb_spec q 0) as [-> | Hne]; simpl.
  - now rewrite item_put_out_of_stock.
  - destruct (Z.ltb_spec (coins s) ITEM_PRICE) as [Hc | Hc].
    + now rewrite (item_put_insufficient s i q).
    + now rewrite (item_put_sold s i q _ Hk Hq).
Qed.

(** X17.  [n] purchases of the same item in a row, with [q] in stock and
    [c] coins, sell exactly as many as the stock, the coins and [n] allow,
    that is [min n (min q (c / 2))]: the stock goes down by that number, the
    coins by twice that number, and the other items stay.  With enough coins
    and [n >= q] the stock ends at 0, never below. *)
Theorem repeated_purchase (s : MachineState) (itemID q : Z) (n : nat) :
  0 <= itemID -> inventory s !! Z.to_nat itemID = Some q -> 0 <= q ->
  after s (replicate n (Purchase itemID)) =
    {| coins := coins s - ITEM_PRICE * sales n q (coins s);
       inventory := <[Z.to_nat itemID := q - sales n q (coins s)]> (inventory s) |}.
Proof.
  intros H0 Hq Hq0. pose proof (half_bounds (coins s)) as Hh.
  assert (Hlt := lookup_lt_Some _ _ _ Hq).
  induction n as [|n IH].
  - assert (E0 : sales 0 q (coins s) = 0) by (unfold sales; lia).
    rewrite E0. unfold after. cbn [replicate foldl].
    rewrite Z.mul_0_r, !Z.sub_0_r, list_insert_id by exact Hq.
    now rewrite machine_eta.
  - rewrite replicate_S_end, after_snoc, IH.
    rewrite (step_purchase_at _ itemID (q - sales n q (coins s)) H0)
      by (simpl; now apply list_lookup_insert_eq).
    simpl. unfold sales in *. unfold ITEM_PRICE in *.
    set (d := coins s / 2) in *.
    rewrite Nat2Z.inj_succ.
    set (k := Z.of_nat n) in *. assert (0 <= k) by (unfold k; lia).
    destruct (Z.eqb_spec (q - Z.max 0 (Z.min k (Z.min q d))) 0) as [E | E]; simpl.
    + replace (Z.max 0 (Z.min (Z.succ k) (Z.min q d)))
        with (Z.max 0 (Z.min k (Z.min q d))) by lia.
      reflexivity.
    + destruct (Z.ltb_spec (coins s - 2 * Z.max 0 (Z.min k (Z.min q d))) 2) as [Hc | Hc].
      * replace (Z.max 0 (Z.min (Z.succ k) (Z.min q d)))
          with (Z.max 0 (Z.min k (Z.min q d))) by lia.
        reflexivity.
      * replace (Z.max 0 (Z.min (Z.succ k) (Z.min q d)))
          with (Z.max 0 (Z.min k (Z.min q d)) + 1) by lia.
        rewrite list_insert_insert_eq. f_equal; [lia | f_equal; lia].
Qed.

Lemma repeated_purchase_witness :
  after {| coins := 20; inventory := [5; 3; 5] |} (replicate 7 (Purchase 1)) =
    {| coins := 14; inventory := [5; 0; 5] |}.
Proof.
  exact (repeated_purchase {| coins := 20; inventory := [5; 3; 5] |} 1 3 7
           ltac:(lia) eq_refl ltac:(lia)).
Defined.

Lemma after_insert_coins (s : MachineState) (n : nat) :
  after s (replicate n (Insert 1)) =
    {| coins := coins s + Z.of_nat n; inventory := inventory s |}.
Proof.
  induction n as [|n IH].
  - unfold after. simpl. now rewrite Z.add_0_r, machine_eta.
  - rewrite replicate_S_end, after_snoc, IH, step_insert by auto.
    simpl. f_equal. lia.
Qed.

(** X18.  Coins are neither lost nor made: after [n] insertions of one
    coin the balance is [n] higher and the inventory is the same, and a
    cancellation then returns exactly that balance and leaves none. *)
Theorem coins_round_trip (s : MachineState) (n : nat) :
  after s (replicate n (Insert 1)) =
    {| coins := coins s + Z.of_nat n; inventory := inventory s |} /\
  _handle_root_delete (fresh (after s (replicate n (Insert 1)))) =
    (Ok tt, {| machine := {| coins := 0; inventory := inventory s |};
               wire := [plain_response 204
                          [("X-Coins"%string, str (coins s + Z.of_nat n))]];
               invoked := [CancelTransaction] |}).
Proof.
  split; [apply after_insert_coins|]. now rewrite after_insert_coins.
Qed.
